(** * Samsung Global Sales EDA: the filter-and-aggregate pipeline

    A shallow embedding of [samsung_eda_streamlit.py].  The script is a
    single top-to-bottom Streamlit run: it loads the uploaded CSV, derives
    two columns, applies the three sidebar filters, stops when nothing is
    left, and otherwise renders the widgets of the selected page.

    Modelling conventions.
    - A data frame is the list of its rows, in frame order.
    - A nullable cell is an [option]; [None] stands for NaN / NaT / a
      missing value.
    - The numbers of the views are exact rationals ([Q]), stated up to
      [Qeq]: they tell which cells enter a sum or a mean and how the
      results are ranked.  The rounding of [float64] and the wrap-around
      of [int64] are not in them; where a statement is about the number
      that additions give, the sums are taken in the arithmetic of the
      column ([groupby_sum_in], [series_sum_in]).
    - The dtype of a column is modelled where the script prints its
      cells: the month column is an integer or a [float64] column
      ([float_months]).
    - pandas operations ([isin], [groupby], [sum], [mean], [pivot],
      [fillna], [dropna], [sort_values], [head], [value_counts]) are
      embedded with the behaviour of their default arguments, which is how
      the script calls them.
    - A run of the script is the list of the Streamlit widgets it emits, in
      order; markdown separators and CSS are left out. *)

From Stdlib Require Import String Ascii ZArith QArith Bool Lia List.
From Stdlib Require Import Permutation Sorted DecimalString.
From Stdlib Require Import DecimalPos DecimalZ.
Import ListNotations.

Set Implicit Arguments.

(* ================================================================== *)
(** * Data model *)

(** A parsed [sale_date] ([parse_dates=["sale_date"]]). *)
Record Timestamp := { ts_year : Z; ts_month : Z; ts_day : Z }.

(** A row as [pd.read_csv] returns it.  Only the columns the script reads
    are kept.  [raw_year] is the CSV's own [year] column, an integer
    column. *)
Record RawRow := {
  raw_sale_date : option Timestamp;
  raw_year : Z;
  raw_quarter : option string;
  raw_region : option string;
  raw_country : option string;
  raw_category : option string;
  raw_product_name : option string;
  raw_customer_segment : option string;
  raw_customer_age_group : option string;
  raw_previous_device_os : option string;
  raw_sales_channel : option string;
  raw_payment_method : option string;
  raw_return_status : option string;
  raw_is_5g : option string;
  raw_unit_price_usd : option Q;
  raw_discount_pct : option Q;
  raw_discounted_price_usd : option Q;
  raw_units_sold : option Q;
  raw_revenue_usd : option Q;
  raw_customer_rating : option Q
}.

(** A row of [df_raw] / [df]: [year] is now text and [month_num] has been
    added. *)
Record Row := {
  sale_date : option Timestamp;
  year : string;
  quarter : option string;
  month_num : option Z;
  region : option string;
  country : option string;
  category : option string;
  product_name : option string;
  customer_segment : option string;
  customer_age_group : option string;
  previous_device_os : option string;
  sales_channel : option string;
  payment_method : option string;
  return_status : option string;
  is_5g : option string;
  unit_price_usd : option Q;
  discount_pct : option Q;
  discounted_price_usd : option Q;
  units_sold : option Q;
  revenue_usd : option Q;
  customer_rating : option Q
}.

Definition DataFrame := list Row.

(* ================================================================== *)
(** * Loading: [load_data] and the upload branch of the sidebar *)

(** [str(n)] for an integer cell, as [astype(str)] produces it. *)
Definition astype_str (n : Z) : string := NilZero.string_of_int (Z.to_int n).

(** [pd.to_datetime(col).dt.month]; NaT gives a missing month. *)
Definition dt_month (d : option Timestamp) : option Z := option_map ts_month d.

(** [dt.year], which the script never calls; it is here to compare the
    loaded [year] with the calendar year of the date. *)
Definition dt_year (d : option Timestamp) : option Z := option_map ts_year d.

(** One row through the two column assignments; every other column is
    carried over unchanged. *)
Definition derive (r : RawRow) : Row := {|
  sale_date := raw_sale_date r;
  year := astype_str (raw_year r);
  quarter := raw_quarter r;
  month_num := dt_month (raw_sale_date r);
  region := raw_region r;
  country := raw_country r;
  category := raw_category r;
  product_name := raw_product_name r;
  customer_segment := raw_customer_segment r;
  customer_age_group := raw_customer_age_group r;
  previous_device_os := raw_previous_device_os r;
  sales_channel := raw_sales_channel r;
  payment_method := raw_payment_method r;
  return_status := raw_return_status r;
  is_5g := raw_is_5g r;
  unit_price_usd := raw_unit_price_usd r;
  discount_pct := raw_discount_pct r;
  discounted_price_usd := raw_discounted_price_usd r;
  units_sold := raw_units_sold r;
  revenue_usd := raw_revenue_usd r;
  customer_rating := raw_customer_rating r
|}.

(** [load_data]: [df["year"] = df["year"].astype(str)] and then
    [df["month_num"] = pd.to_datetime(df["sale_date"]).dt.month].  The
    argument is the frame [pd.read_csv] has parsed. *)
Definition load_data (csv : list RawRow) : DataFrame := map derive csv.

(** The upload branch (lines 56-58) makes the same two assignments in the
    other order. *)
Definition upload_branch (csv : list RawRow) : DataFrame := map derive csv.

(* ================================================================== *)
(** * Filters *)

(** The three [st.multiselect] selections.  A multiselect returns elements
    of its option list, which is the column's [unique()] values, so the
    region and category lists have the cell type of their column. *)
Record FilterSpec := {
  years : list string;
  regions : list (option string);
  categories : list (option string)
}.

Definition option_eqb {A} (eqb : A -> A -> bool) (x y : option A) : bool :=
  match x, y with
  | Some a, Some b => eqb a b
  | None, None => true
  | _, _ => false
  end.

(** [Series.isin(values)], one cell at a time. *)
Definition isin {A} (eqb : A -> A -> bool) (values : list A) (x : A) : bool :=
  existsb (eqb x) values.

(** The boolean mask of lines 84-86. *)
Definition mask (f : FilterSpec) (r : Row) : bool :=
  isin String.eqb (years f) (year r)
  && isin (option_eqb String.eqb) (regions f) (region r)
  && isin (option_eqb String.eqb) (categories f) (category r).

(** [df = df_raw[mask].copy()]. *)
Definition apply_filters (df_raw : DataFrame) (f : FilterSpec) : DataFrame :=
  filter (mask f) df_raw.

(* ================================================================== *)
(** * Group keys *)

(** Keys are compared the way pandas sorts them: text by code point,
    integers by value, tuples lexicographically. *)
Class Ord (K : Type) := cmp : K -> K -> comparison.

#[export] Instance Ord_string : Ord string := String.compare.
#[export] Instance Ord_Z : Ord Z := Z.compare.
#[export] Instance Ord_pair {A B} `{Ord A} `{Ord B} : Ord (A * B) :=
  fun x y =>
    match cmp (fst x) (fst y) with
    | Eq => cmp (snd x) (snd y)
    | c => c
    end.

Definition key_eqb {K} `{Ord K} (a b : K) : bool :=
  match cmp a b with Eq => true | _ => false end.

(** What the grouping relies on: [cmp] is a strict total order that
    answers [Eq] on equal keys only. *)
Class OrdLaws {K : Type} (O : Ord K) : Prop := {
  cmp_eq : forall a b : K, cmp a b = Eq <-> a = b;
  cmp_antisym : forall a b : K, cmp a b = CompOpp (cmp b a);
  cmp_trans : forall a b c : K, cmp a b = Lt -> cmp b c = Lt -> cmp a c = Lt
}.

(** A tuple key of a two-column [groupby]; a null in either column makes
    the tuple null. *)
Definition key2 {A B} (ka : Row -> option A) (kb : Row -> option B)
    (r : Row) : option (A * B) :=
  match ka r, kb r with
  | Some a, Some b => Some (a, b)
  | _, _ => None
  end.

Definition year_key (r : Row) : option string := Some (year r).

(* ================================================================== *)
(** * Aggregation: [groupby(...)[col].sum()] and [.mean()] *)

Section GroupBy.
Context {K : Type} `{Ord K} {A : Type}.

(** The accumulator of a [groupby] pass holds one slot per group, in
    ascending key order ([sort=True]).  [upsert] brings a row of key [k]
    into it: the slot of [k] is updated by [f], and a key met for the first
    time gets the slot [fresh] at its place in the order. *)
Fixpoint upsert (k : K) (fresh : A) (f : A -> A) (m : list (K * A))
    : list (K * A) :=
  match m with
  | [] => [(k, fresh)]
  | (k', a) :: m' =>
      match cmp k k' with
      | Eq => (k', f a) :: m'
      | Lt => (k, fresh) :: m
      | Gt => (k', a) :: upsert k fresh f m'
      end
  end.

(** What one row does to the accumulator.  A row whose key is null
    belongs to no group ([dropna=True]). *)
Definition pass (key : Row -> option K) (empty : A) (step : Row -> A -> A)
    (acc : list (K * A)) (r : Row) : list (K * A) :=
  match key r with
  | Some k => upsert k (step r empty) (step r) acc
  | None => acc
  end.

(** One pass over the rows. *)
Definition aggregate (key : Row -> option K) (empty : A)
    (step : Row -> A -> A) (df : DataFrame) : list (K * A) :=
  fold_left (pass key empty step) df [].

(** Slots in strictly ascending key order. *)
Definition ascending_keys (m : list (K * A)) : Prop :=
  StronglySorted (fun a b => cmp (fst a) (fst b) = Lt) m.

Fixpoint lookup (k : K) (m : list (K * A)) : option A :=
  match m with
  | [] => None
  | (k', a) :: m' => if key_eqb k k' then Some a else lookup k m'
  end.
End GroupBy.

(** A null cell adds nothing to a sum ([skipna]). *)
Definition nan_to_zero (v : option Q) : Q :=
  match v with Some q => q | None => 0 end.

Definition add_cell (col : Row -> option Q) (r : Row) (acc : Q) : Q :=
  acc + nan_to_zero (col r).

(** [df.groupby(key)[col].sum()] over the rationals: an all-null group
    sums to 0. *)
Definition groupby_sum {K} `{Ord K} (key : Row -> option K)
    (col : Row -> option Q) (df : DataFrame) : list (K * Q) :=
  aggregate key 0 (add_cell col) df.

(** The running sum and the number of non-null observations of a group. *)
Definition mean_step (col : Row -> option Q) (r : Row) (acc : Q * nat)
    : Q * nat :=
  match col r with
  | Some v => (fst acc + v, S (snd acc))
  | None => acc
  end.

Definition mean_finish (acc : Q * nat) : option Q :=
  match snd acc with
  | O => None
  | S _ => Some (fst acc / inject_Z (Z.of_nat (snd acc)))
  end.

(** [df.groupby(key)[col].mean()]. *)
Definition groupby_mean {K} `{Ord K} (key : Row -> option K)
    (col : Row -> option Q) (df : DataFrame) : list (K * option Q) :=
  map (fun e => (fst e, mean_finish (snd e)))
      (aggregate key (0, O) (mean_step col) df).

(** [df[col].sum()] over the rationals. *)
Definition series_sum (col : Row -> option Q) (df : DataFrame) : Q :=
  fold_left (fun acc r => add_cell col r acc) df 0.

(** [df[col].mean()]. *)
Definition series_mean (col : Row -> option Q) (df : DataFrame) : option Q :=
  mean_finish (fold_left (fun acc r => mean_step col r acc) df (0, O)).

(** [(df[col] == value).mean()]: the share of rows whose cell equals
    [value]; a null cell compares unequal. *)
Definition share_equal (col : Row -> option string) (value : string)
    (df : DataFrame) : option Q :=
  match df with
  | [] => None
  | _ =>
      Some (inject_Z (Z.of_nat (length (filter
              (fun r => option_eqb String.eqb (col r) (Some value)) df)))
            / inject_Z (Z.of_nat (length df)))
  end.

(** [df[col].nunique()]. *)
Definition nunique {K} `{Ord K} (key : Row -> option K) (df : DataFrame)
    : nat :=
  length (aggregate key tt (fun _ u => u) df).

(* ================================================================== *)
(** * Pivot: [frame.pivot(index, columns, values)] and [fillna(0)] *)

Record PivotMatrix (R C : Type) := {
  index : list R;
  columns : list C;
  cells : list (list (option Q))
}.

(** Sorted distinct values of a key list. *)
Definition sorted_unique {K} `{Ord K} (l : list K) : list K :=
  map fst (fold_left (fun acc k => upsert k tt (fun u => u) acc) l []).

(** One row per distinct first key, one column per distinct second key;
    a combination the grouped frame does not hold is a null cell. *)
Definition pivot {R C} `{Ord R} `{Ord C} (g : list ((R * C) * Q))
    : PivotMatrix R C :=
  let idx := sorted_unique (map (fun e => fst (fst e)) g) in
  let cols := sorted_unique (map (fun e => snd (fst e)) g) in
  {| index := idx;
     columns := cols;
     cells := map (fun r => map (fun c => lookup (r, c) g) cols) idx |}.

Definition fillna {R C} (v : Q) (p : PivotMatrix R C) : PivotMatrix R C :=
  {| index := index p;
     columns := columns p;
     cells := map (map (fun c => Some (match c with Some q => q | None => v end)))
                  (cells p) |}.

Fixpoint position {K} `{Ord K} (k : K) (l : list K) : option nat :=
  match l with
  | [] => None
  | k' :: l' => if key_eqb k k' then Some O else option_map S (position k l')
  end.

(** The cell at a row label and a column label ([p.loc[r, c]]). *)
Definition cell_at {R C} `{Ord R} `{Ord C} (p : PivotMatrix R C) (r : R) (c : C)
    : option (option Q) :=
  match position r (index p), position c (columns p) with
  | Some i, Some j => nth_error (nth i (cells p) []) j
  | _, _ => None
  end.

(* ================================================================== *)
(** * Ranking: [sort_values] and [head] *)

Section Sort.
Context {E : Type} (le : E -> E -> bool).

(** [x] goes before the first element it does not exceed, so an element
    met earlier stays ahead of its equals. *)
Fixpoint insert_sorted (x : E) (l : list E) : list E :=
  match l with
  | [] => [x]
  | y :: l' => if le x y then x :: l else y :: insert_sorted x l'
  end.

Definition stable_sort (l : list E) : list E :=
  fold_right insert_sorted [] l.

(** pandas' [nargsort]: a descending sort reverses the items, sorts them
    ascending and reverses the outcome.  The default [kind="quicksort"]
    is numpy's own sort, which does not promise an order among equal
    items; they are kept here in the order of a stable sort, which may
    not be the order of a run, and no theorem on ranking speaks of the
    order of equal items. *)
Definition nargsort (ascending : bool) (l : list E) : list E :=
  if ascending then stable_sort l else rev (stable_sort (rev l)).
End Sort.

Definition by_value {K} (a b : K * Q) : bool := Qle_bool (snd a) (snd b).
Definition by_count {K} (a b : K * nat) : bool := Nat.leb (snd a) (snd b).

(** The entries of a series whose value is present, and those whose value
    is null. *)
Definition notna {K} (s : list (K * option Q)) : list (K * Q) :=
  flat_map (fun e => match snd e with Some q => [(fst e, q)] | None => [] end) s.

Definition isna {K} (s : list (K * option Q)) : list (K * option Q) :=
  filter (fun e => match snd e with Some _ => false | None => true end) s.

Definition present {K} (e : K * Q) : K * option Q := (fst e, Some (snd e)).

(** [Series.sort_values(ascending=...)]: nulls go last in both
    directions ([na_position="last"]). *)
Definition sort_values {K} (ascending : bool) (s : list (K * option Q))
    : list (K * option Q) :=
  map present (nargsort by_value ascending (notna s)) ++ isna s.

(** A [groupby(...).sum()] result as a series. *)
Definition to_series {K} (g : list (K * Q)) : list (K * option Q) :=
  map present g.

(** [.head(n)]. *)
Definition head {A} (n : nat) (l : list A) : list A := firstn n l.

(** [Series.value_counts()]: nulls are not counted, values are met in
    frame order and then sorted by descending count. *)
Fixpoint bump {K} `{Ord K} (k : K) (m : list (K * nat)) : list (K * nat) :=
  match m with
  | [] => [(k, 1%nat)]
  | (k', n) :: m' =>
      if key_eqb k k' then (k', S n) :: m' else (k', n) :: bump k m'
  end.

Definition value_counts {K} `{Ord K} (col : Row -> option K) (df : DataFrame)
    : list (K * nat) :=
  nargsort by_count false
    (fold_left
       (fun acc r => match col r with Some k => bump k acc | None => acc end)
       df []).

(** The keys of a grouping column in the order their first row appears in
    the frame. *)
Definition first_appearance {K} `{Ord K} (key : Row -> option K)
    (df : DataFrame) : list K :=
  map fst
    (fold_left
       (fun acc r => match key r with Some k => bump k acc | None => acc end)
       df []).

(* ================================================================== *)
(** * Null handling: [dropna], the correlation input, the missing report *)

Definition is_null {A} (c : option A) : bool :=
  match c with Some _ => false | None => true end.

(** [df[cols]] for numeric columns. *)
Definition select (cols : list (Row -> option Q)) (df : DataFrame)
    : list (list (option Q)) :=
  map (fun r => map (fun c => c r) cols) df.

Definition complete (row : list (option Q)) : bool :=
  forallb (fun c => negb (is_null c)) row.

(** [frame.dropna()]: a row stays when none of its cells is null. *)
Definition dropna (rows : list (list (option Q))) : list (list (option Q)) :=
  filter complete rows.

(** [df.dropna(subset=[col])]. *)
Definition dropna_subset {A} (col : Row -> option A) (df : DataFrame)
    : DataFrame :=
  filter (fun r => negb (is_null (col r))) df.

(** The observations [frame.corr()] uses for the entry of columns [i] and
    [j]: the rows in which both cells are present (pairwise deletion).
    The coefficient itself needs a square root and is left to pandas. *)
Definition pair_obs (i j : nat) (rows : list (list (option Q)))
    : list (Q * Q) :=
  flat_map
    (fun row =>
       match nth i row None, nth j row None with
       | Some x, Some y => [(x, y)]
       | _, _ => []
       end)
    rows.

(** [frame.corr()], each entry given by the observations it is computed
    from. *)
Definition corr_obs (width : nat) (rows : list (list (option Q)))
    : list (list (list (Q * Q))) :=
  map (fun i => map (fun j => pair_obs i j rows) (seq 0 width)) (seq 0 width).

Definition corr_columns : list (Row -> option Q) :=
  [unit_price_usd; discount_pct; units_sold; discounted_price_usd;
   revenue_usd; customer_rating].

(** [num] of line 472. *)
Definition num (df : DataFrame) : list (list (option Q)) :=
  dropna (select corr_columns df).

(** [corr] of line 474. *)
Definition corr (df : DataFrame) : list (list (list (Q * Q))) :=
  corr_obs (length corr_columns) (num df).

(** Modelled from the spec: the CSV file and so its column list are not in
    the sources.  The columns are those of the data model (section 3 of the
    specification), which are the ones the script reads, with [month_num]
    appended last by the loader; each comes with its null test. *)
Definition schema : list (string * (Row -> bool)) :=
  [("sale_date", fun r => is_null (sale_date r));
   ("year", fun _ => false);
   ("quarter", fun r => is_null (quarter r));
   ("region", fun r => is_null (region r));
   ("country", fun r => is_null (country r));
   ("category", fun r => is_null (category r));
   ("product_name", fun r => is_null (product_name r));
   ("customer_segment", fun r => is_null (customer_segment r));
   ("customer_age_group", fun r => is_null (customer_age_group r));
   ("previous_device_os", fun r => is_null (previous_device_os r));
   ("sales_channel", fun r => is_null (sales_channel r));
   ("payment_method", fun r => is_null (payment_method r));
   ("return_status", fun r => is_null (return_status r));
   ("is_5g", fun r => is_null (is_5g r));
   ("unit_price_usd", fun r => is_null (unit_price_usd r));
   ("discount_pct", fun r => is_null (discount_pct r));
   ("discounted_price_usd", fun r => is_null (discounted_price_usd r));
   ("units_sold", fun r => is_null (units_sold r));
   ("revenue_usd", fun r => is_null (revenue_usd r));
   ("customer_rating", fun r => is_null (customer_rating r));
   ("month_num", fun r => is_null (month_num r))]%string.

Definition of_nat (n : nat) : Q := inject_Z (Z.of_nat n).

(** [numpy.rint]: the nearest integer, a tie going to the even one. *)
Definition rint (q : Q) : Z :=
  let n := Qnum q in
  let d := Z.pos (Qden q) in
  let lo := (n / d)%Z in
  match (2 * (n mod d) ?= d)%Z with
  | Lt => lo
  | Gt => (lo + 1)%Z
  | Eq => if Z.even lo then lo else (lo + 1)%Z
  end.

(** [Series.round(2)]: scaled by 100, rounded to the nearest integer and
    scaled back. *)
Definition round2 (q : Q) : Q := inject_Z (rint (q * 100)) / 100.

(** [miss] of lines 455-459: per column the number of nulls and their
    share of the rows in percent, rounded to two decimals, columns without
    nulls dropped, most nulls first. *)
Definition miss (df : DataFrame) : list (string * nat * Q) :=
  let missing := map (fun c => (fst c, length (filter (snd c) df))) schema in
  let pct :=
    map (fun e => (e, round2 (of_nat (snd e) / of_nat (length df) * 100)))
        missing in
  nargsort (fun a b => Nat.leb (snd (fst a)) (snd (fst b))) false
    (filter (fun e => Nat.ltb 0 (snd (fst e))) pct).

(** [df.to_csv(index=False)]: the header line and one line per row, in
    frame order.  The text of a cell is pandas' and is not modelled. *)
Record Csv := { header : list string; body : DataFrame }.

Definition to_csv (df : DataFrame) : Csv :=
  {| header := map fst schema; body := df |}.

(* ================================================================== *)
(** * Widgets *)

(** The data handed to a chart or a table. *)
Inductive Frame :=
| FRows (rows : DataFrame)
| FSeries (s : list (string * option Q))
| FSeries2 (s : list ((string * string) * option Q))
| FCounts (c : list (string * nat))
| FPivot (p : PivotMatrix string string)
| FNumeric (rows : list (list (option Q)))
| FCorr (obs : list (list (list (Q * Q))))
| FMissing (m : list (string * nat * Q)).

Inductive Widget :=
| st_info (msg : string)
| st_warning (msg : string)
| st_success (msg : string)
| st_title (text : string)
| st_subheader (text : string)
| st_summary (transactions n_years n_regions n_categories : nat)
| st_metric (label : string) (value : option Q)
| st_plotly_chart (kind : string) (data : Frame)
| st_dataframe (data : Frame)
| st_download_button (label : string) (data : Csv) (file_name mime : string).

Inductive Page :=
| Overview
| ProductAnalysis
| RegionalAnalysis
| CustomerAnalysis
| SalesChannels
| DataQuality.

Open Scope string_scope.

(** [str.zfill(width)]. *)
Definition zfill (width : nat) (s : string) : string :=
  let pad := (width - String.length s)%nat in
  let zeros := string_of_list_ascii (repeat "0"%char pad) in
  match s with
  | String c rest =>
      if (Ascii.eqb c "+" || Ascii.eqb c "-")%bool
      then String c (zeros ++ rest)
      else zeros ++ s
  | EmptyString => zeros
  end.

Definition is_digit (c : ascii) : bool :=
  ((48 <=? nat_of_ascii c) && (nat_of_ascii c <=? 57))%nat.

(** The dtype of the [month_num] column of the upload: [dt.month] gives an
    integer column when every sale date is there, and a [float64] one as
    soon as one is missing (NaT).  A filter keeps the dtype of the column,
    whatever rows it keeps, so the pages take it from the upload. *)
Definition float_months (df_raw : DataFrame) : bool :=
  existsb (fun r => is_null (month_num r)) df_raw.

(** [astype(str)] of a month cell: [5] prints as "5" in an integer column
    and as "5.0" in a [float64] one. *)
Definition month_text (as_float : bool) (m : Z) : string :=
  if as_float then astype_str m ++ ".0" else astype_str m.

(** What [period] puts after the year text. *)
Definition period_suffix (as_float : bool) (m : Z) : string :=
  "-" ++ zfill 2 (month_text as_float m).

(** The [period] column of [monthly] (lines 145-146). *)
Definition period (as_float : bool) (y : string) (m : Z) : string :=
  y ++ period_suffix as_float m.

(* ------------------------------------------------------------------ *)
(** ** Overview *)

Definition yr (df : DataFrame) := groupby_sum year_key revenue_usd df.
Definition qtr (df : DataFrame) := groupby_sum quarter revenue_usd df.

Definition monthly (as_float : bool) (df : DataFrame)
    : list ((string * string) * option Q) :=
  map (fun e => ((fst (fst e), period as_float (fst (fst e)) (snd (fst e))),
                 Some (snd e)))
      (groupby_sum (key2 year_key month_num) revenue_usd df).

Definition heat (df : DataFrame) := groupby_sum (key2 year_key quarter) revenue_usd df.

(** Lines 157-158: no [fillna]. *)
Definition heat_pivot (df : DataFrame) : PivotMatrix string string :=
  pivot (heat df).

Definition num_cols : list (Row -> option Q) :=
  [unit_price_usd; discount_pct; units_sold; revenue_usd; customer_rating].

Definition overview (as_float : bool) (df : DataFrame) : list Widget :=
  [ st_title "📱 Samsung Global Sales — EDA Dashboard";
    st_summary (length df) (nunique year_key df) (nunique region df)
      (nunique category df);
    st_metric "💰 Total Revenue" (Some (series_sum revenue_usd df / 1000000));
    st_metric "🧾 Transactions" (Some (of_nat (length df)));
    st_metric "📦 Avg Order Value" (series_mean revenue_usd df);
    st_metric "↩️ Return Rate"
      (option_map (fun x => x * 100) (share_equal return_status "Returned" df));
    st_metric "⭐ Avg Rating" (series_mean customer_rating df);
    st_metric "🏷️ Avg Discount" (series_mean discount_pct df);
    st_subheader "Revenue by Year";
    st_plotly_chart "bar" (FSeries (to_series (yr df)));
    st_subheader "Revenue by Quarter (aggregated)";
    st_plotly_chart "bar" (FSeries (to_series (qtr df)));
    st_subheader "Monthly Revenue Trend";
    st_plotly_chart "line" (FSeries2 (monthly as_float df));
    st_subheader "Revenue Heatmap — Year × Quarter";
    st_plotly_chart "imshow" (FPivot (heat_pivot df));
    st_subheader "📋 Descriptive Statistics";
    st_dataframe (FNumeric (select num_cols df)) ].

(* ------------------------------------------------------------------ *)
(** ** Product analysis *)

Definition cat (df : DataFrame) :=
  sort_values true (to_series (groupby_sum category revenue_usd df)).

Definition cat_cnt (df : DataFrame) := value_counts category df.

(** Lines 201-202. *)
Definition top (df : DataFrame) :=
  head 15 (sort_values false (to_series (groupby_sum product_name revenue_usd df))).

Definition fg (df : DataFrame) := groupby_sum is_5g revenue_usd df.

(** Lines 222-223. *)
Definition rat (df : DataFrame) :=
  sort_values true (groupby_mean category customer_rating df).

Definition product_analysis (df : DataFrame) : list Widget :=
  [ st_title "📦 Product Analysis";
    st_subheader "Revenue by Category";
    st_plotly_chart "bar" (FSeries (cat df));
    st_subheader "Transaction Count by Category";
    st_plotly_chart "pie" (FCounts (cat_cnt df));
    st_subheader "Top 15 Products by Revenue";
    st_plotly_chart "bar" (FSeries (top df));
    st_subheader "5G vs Non-5G Revenue";
    st_plotly_chart "pie" (FSeries (to_series (fg df)));
    st_subheader "Avg Rating by Category";
    st_plotly_chart "bar" (FSeries (rat df));
    st_subheader "Discount % Distribution by Category";
    st_plotly_chart "box" (FRows df);
    st_subheader "Unit Price vs Revenue (by Category)";
    st_plotly_chart "scatter" (FRows df) ].

(* ------------------------------------------------------------------ *)
(** ** Regional analysis *)

Definition reg (df : DataFrame) :=
  sort_values true (to_series (groupby_sum region revenue_usd df)).

(** Lines 273-274. *)
Definition country_top (df : DataFrame) :=
  head 20 (sort_values false (to_series (groupby_sum country revenue_usd df))).

Definition rc (df : DataFrame) := groupby_sum (key2 region category) revenue_usd df.

(** Lines 284-285: [fillna(0)]. *)
Definition rc_pivot (df : DataFrame) : PivotMatrix string string :=
  fillna 0 (pivot (rc df)).

Definition ry (df : DataFrame) := groupby_sum (key2 region year_key) revenue_usd df.

Definition regional_analysis (df : DataFrame) : list Widget :=
  [ st_title "🌍 Regional Analysis";
    st_subheader "Revenue by Region";
    st_plotly_chart "bar" (FSeries (reg df));
    st_subheader "Region Share (Pie)";
    st_plotly_chart "pie" (FSeries (reg df));
    st_subheader "Top 20 Countries by Revenue";
    st_plotly_chart "bar" (FSeries (country_top df));
    st_subheader "Revenue Heatmap — Region × Category";
    st_plotly_chart "imshow" (FPivot (rc_pivot df));
    st_subheader "Regional Revenue Trend by Year";
    st_plotly_chart "line" (FSeries2 (to_series (ry df))) ].

(* ------------------------------------------------------------------ *)
(** ** Customer analysis *)

Definition seg (df : DataFrame) := value_counts customer_segment df.
Definition age (df : DataFrame) := value_counts customer_age_group df.
Definition seg_yr (df : DataFrame) :=
  groupby_sum (key2 customer_segment year_key) revenue_usd df.
Definition ret (df : DataFrame) := value_counts return_status df.

(** [df["previous_device_os"].dropna().value_counts()]. *)
Definition os_df (df : DataFrame) :=
  value_counts previous_device_os (dropna_subset previous_device_os df).

Definition customer_analysis (df : DataFrame) : list Widget :=
  [ st_title "👤 Customer Analysis";
    st_subheader "Customer Segments";
    st_plotly_chart "pie" (FCounts (seg df));
    st_subheader "Age Group Distribution";
    st_plotly_chart "bar" (FCounts (age df));
    st_subheader "Revenue by Customer Segment × Year";
    st_plotly_chart "bar" (FSeries2 (to_series (seg_yr df)));
    st_subheader "Return Status Breakdown";
    st_plotly_chart "pie" (FCounts (ret df));
    st_subheader "Customer Rating Distribution";
    st_plotly_chart "histogram" (FRows (dropna_subset customer_rating df));
    st_subheader "Previous Device OS (top sources)";
    st_plotly_chart "bar" (FCounts (os_df df));
    st_subheader "Avg Rating by Age Group × Category";
    st_plotly_chart "density_heatmap" (FRows (dropna_subset customer_rating df)) ].

(* ------------------------------------------------------------------ *)
(** ** Sales channels *)

Definition ch (df : DataFrame) :=
  sort_values true (to_series (groupby_sum sales_channel revenue_usd df)).
Definition pay (df : DataFrame) := value_counts payment_method df.
Definition cc (df : DataFrame) :=
  groupby_sum (key2 sales_channel category) revenue_usd df.
Definition cy (df : DataFrame) :=
  groupby_sum (key2 sales_channel year_key) revenue_usd df.
Definition aov (df : DataFrame) :=
  sort_values true (groupby_mean sales_channel revenue_usd df).
Definition ps (df : DataFrame) :=
  groupby_sum (key2 payment_method customer_segment) revenue_usd df.

Definition sales_channels (df : DataFrame) : list Widget :=
  [ st_title "🛒 Sales Channels & Payments";
    st_subheader "Revenue by Sales Channel";
    st_plotly_chart "bar" (FSeries (ch df));
    st_subheader "Payment Method Distribution";
    st_plotly_chart "pie" (FCounts (pay df));
    st_subheader "Channel × Category Revenue Heatmap";
    st_plotly_chart "density_heatmap" (FSeries2 (to_series (cc df)));
    st_subheader "Sales Channel Trend by Year";
    st_plotly_chart "line" (FSeries2 (to_series (cy df)));
    st_subheader "Avg Order Value by Channel";
    st_plotly_chart "bar" (FSeries (aov df));
    st_subheader "Payment Method × Segment";
    st_plotly_chart "bar" (FSeries2 (to_series (ps df))) ].

(* ------------------------------------------------------------------ *)
(** ** Data quality *)

(** Lines 460-468: a success note when nothing is missing, else the chart
    and the table of the report. *)
Definition missing_values (df : DataFrame) : list Widget :=
  match miss df with
  | [] => [ st_success "✅ No missing values in current filtered data." ]
  | m => [ st_plotly_chart "bar" (FMissing m); st_dataframe (FMissing m) ]
  end.

Definition download (df : DataFrame) : Widget :=
  st_download_button "⬇️ Download Filtered Data as CSV" (to_csv df)
    "samsung_filtered.csv" "text/csv".

Definition data_quality (df : DataFrame) : list Widget :=
  ([ st_title "🔬 Data Quality & Raw Data";
     st_subheader "Missing Values" ]
   ++ missing_values df
   ++ [ st_subheader "Correlation Matrix (Numeric Features)";
        st_plotly_chart "imshow" (FCorr (corr df));
        st_subheader "Outlier Detection — Revenue Distribution";
        st_plotly_chart "box" (FRows df);
        st_plotly_chart "histogram" (FRows df);
        st_subheader "📄 Raw Data Explorer";
        st_dataframe (FRows (head 500 df));
        download df ])%list.

(* ------------------------------------------------------------------ *)
(** ** The run *)

(** The [if page == ... elif ...] chain of lines 96-506. *)
Definition render (page : Page) (as_float : bool) (df : DataFrame)
    : list Widget :=
  match page with
  | Overview => overview as_float df
  | ProductAnalysis => product_analysis df
  | RegionalAnalysis => regional_analysis df
  | CustomerAnalysis => customer_analysis df
  | SalesChannels => sales_channels df
  | DataQuality => data_quality df
  end.

Definition no_data : string :=
  "No data matches the current filters. Please adjust the sidebar.".

(** Lines 83-91 and what follows: the filters, then the guard.  [st.stop()]
    ends the run, so the warning is the last widget of a run whose filtered
    frame is empty. *)
Definition main (df_raw : DataFrame) (sel : FilterSpec) (page : Page)
    : list Widget :=
  let df := apply_filters df_raw sel in
  match df with
  | [] => [ st_warning no_data ]
  | _ => render page (float_months df_raw) df
  end.

(** The whole script: without an upload the sidebar stops the run
    (lines 59-61). *)
Definition app (uploaded : option (list RawRow)) (sel : FilterSpec)
    (page : Page) : list Widget :=
  match uploaded with
  | None => [ st_info "Upload `samsung_global_sales_dataset.csv` to begin." ]
  | Some csv => main (upload_branch csv) sel page
  end.

(** Whether a run shows a given kind of widget. *)
Definition is_download (w : Widget) : bool :=
  match w with st_download_button _ _ _ _ => true | _ => false end.

Definition is_view (w : Widget) : bool :=
  match w with
  | st_plotly_chart _ _ | st_dataframe _ | st_metric _ _ => true
  | _ => false
  end.

Close Scope string_scope.

(* ================================================================== *)
(** * What the specification asks for, in its own words *)

(** The calendar year of the sale date, as text. *)
Definition calendar_year_text (r : RawRow) : option string :=
  option_map astype_str (dt_year (raw_sale_date r)).

(** The rows of a group. *)
Definition group_rows {K} `{Ord K} (key : Row -> option K) (k : K)
    (df : DataFrame) : DataFrame :=
  filter (fun r => match key r with Some k' => key_eqb k' k | None => false end) df.

(** The non-null values of a column. *)
Definition non_null (col : Row -> option Q) (df : DataFrame) : list Q :=
  flat_map (fun r => match col r with Some v => [v] | None => [] end) df.

Definition total (l : list Q) : Q := fold_right Qplus 0 l.

(** "The sum of a GroupedMetric's values". *)
Definition values_total {K} (g : list (K * Q)) : Q := total (map snd g).

(** Whether a row has a value in a grouping column. *)
Definition has_key {K} (key : Row -> option K) (r : Row) : bool :=
  negb (is_null (key r)).

(** "Mean aggregation divides by the count of records contributing to that
    group, excluding records where the numeric field is null; if all
    contributing values are null the group's mean is undefined." *)
Definition spec_mean (col : Row -> option Q) (rows : DataFrame) : option Q :=
  match non_null col rows with
  | [] => None
  | vs => Some (total vs / of_nat (length vs))
  end.

(** Equality of possibly undefined rationals, up to [Qeq]. *)
Definition opt_Qeq (x y : option Q) : Prop :=
  match x, y with
  | Some a, Some b => a == b
  | None, None => True
  | _, _ => False
  end.

(** The two cells of a complete row that enter the matrix entry of columns
    [i] and [j]. *)
Definition observation (i j : nat) (row : list (option Q)) : Q * Q :=
  (nan_to_zero (nth i row None), nan_to_zero (nth j row None)).

(** Listwise deletion: the rows with a value in every selected column. *)
Definition complete_rows (cols : list (Row -> option Q)) (df : DataFrame)
    : DataFrame :=
  filter (fun r => forallb (fun c => negb (is_null (c r))) cols) df.

(** "Sort is by aggregate value": each entry is followed only by entries
    that do not rank before it; nulls rank last. *)
Definition ranks_before (ascending : bool) (x y : option Q) : Prop :=
  match x, y with
  | Some a, Some b => if ascending then a <= b else b <= a
  | _, None => True
  | None, Some _ => False
  end.

Definition ranked {K} (ascending : bool) (s : list (K * option Q)) : Prop :=
  StronglySorted (fun a b => ranks_before ascending (snd a) (snd b)) s.

(** The allow-list test of one dimension. *)
Definition allows {A} (values : list A) (x : A) : Prop := In x values.

(* ================================================================== *)
(** * Sample data *)

Open Scope string_scope.

(** A row with the given year, quarter, region, country, category, product,
    revenue and rating; the other cells are null. *)
Definition sample (y : string) (q rg ctry ctg prod : option string)
    (rev rating : option Q) : Row := {|
  sale_date := None;
  year := y;
  quarter := q;
  month_num := None;
  region := rg;
  country := ctry;
  category := ctg;
  product_name := prod;
  customer_segment := None;
  customer_age_group := None;
  previous_device_os := None;
  sales_channel := None;
  payment_method := None;
  return_status := None;
  is_5g := None;
  unit_price_usd := None;
  discount_pct := None;
  discounted_price_usd := None;
  units_sold := None;
  revenue_usd := rev;
  customer_rating := rating
|}.

(** A raw row with the given date and [year] cell. *)
Definition raw_sample (d : option Timestamp) (y : Z) : RawRow := {|
  raw_sale_date := d;
  raw_year := y;
  raw_quarter := None;
  raw_region := None;
  raw_country := None;
  raw_category := None;
  raw_product_name := None;
  raw_customer_segment := None;
  raw_customer_age_group := None;
  raw_previous_device_os := None;
  raw_sales_channel := None;
  raw_payment_method := None;
  raw_return_status := None;
  raw_is_5g := None;
  raw_unit_price_usd := None;
  raw_discount_pct := None;
  raw_discounted_price_usd := None;
  raw_units_sold := None;
  raw_revenue_usd := None;
  raw_customer_rating := None
|}.

Definition phone_2022 : Row :=
  sample "2022" (Some "Q1") (Some "US") (Some "USA") (Some "Phone") (Some "S22")
    (Some 100) (Some 4).

(** The four records of the specification's scenario. *)
Definition scenario : DataFrame :=
  [ phone_2022;
    sample "2022" (Some "Q1") (Some "US") (Some "USA") (Some "TV") (Some "QLED") (Some 50) (Some 5);
    sample "2023" (Some "Q2") (Some "EU") (Some "Germany") (Some "Phone") (Some "S23") (Some 200) None;
    sample "2023" (Some "Q2") (Some "EU") (Some "Germany") (Some "Phone") (Some "S23") None None ].

(** A frame of whole revenues, the first at the top of the [int64]
    range; 2022 has two quarters. *)
Definition ledger : DataFrame :=
  [ sample "2022" (Some "Q1") (Some "US") (Some "USA") (Some "Phone") (Some "S22")
      (Some 9223372036854775807) (Some 4);
    sample "2022" (Some "Q2") (Some "US") (Some "USA") (Some "TV") (Some "QLED")
      (Some 1) (Some 5);
    sample "2023" (Some "Q1") (Some "EU") (Some "Germany") (Some "Phone") (Some "S23")
      (Some 5) (Some 3) ].

(** The row [r] with a sale date: the first of month [m] of year [y]. *)
Definition dated (y m : Z) (r : Row) : Row := {|
  sale_date := Some {| ts_year := y; ts_month := m; ts_day := 1 |};
  year := year r;
  quarter := quarter r;
  month_num := Some m;
  region := region r;
  country := country r;
  category := category r;
  product_name := product_name r;
  customer_segment := customer_segment r;
  customer_age_group := customer_age_group r;
  previous_device_os := previous_device_os r;
  sales_channel := sales_channel r;
  payment_method := payment_method r;
  return_status := return_status r;
  is_5g := is_5g r;
  unit_price_usd := unit_price_usd r;
  discount_pct := discount_pct r;
  discounted_price_usd := discounted_price_usd r;
  units_sold := units_sold r;
  revenue_usd := revenue_usd r;
  customer_rating := customer_rating r
|}.

(** Three dated records, not in the order of the calendar. *)
Definition calendar : DataFrame :=
  [ dated 2022 10 phone_2022;
    dated 2022 9
      (sample "2022" (Some "Q3") (Some "US") (Some "USA") (Some "TV") (Some "QLED")
         (Some 50) (Some 5));
    dated 2023 1
      (sample "2023" (Some "Q1") (Some "EU") (Some "Germany") (Some "Phone") (Some "S23")
         (Some 200) None) ].

Definition all_of_scenario : FilterSpec :=
  {| years := ["2022"; "2023"];
     regions := [Some "US"; Some "EU"];
     categories := [Some "Phone"; Some "TV"] |}.

Definition year_2099 : FilterSpec :=
  {| years := ["2099"];
     regions := [Some "US"; Some "EU"];
     categories := [Some "Phone"; Some "TV"] |}.

Close Scope string_scope.

(* ================================================================== *)
(** * The sidebar: options and default selections (lines 63-69) *)

Open Scope string_scope.

(** The text cells of a column, in frame order. *)
Definition text_cells (cells : list (option string)) : list string :=
  flat_map (fun c => match c with Some s => [s] | None => [] end) cells.

(** The options and the default of one multiselect over a column of text
    cells: [sorted(df_raw[col].unique())], given twice.  A missing cell is
    a float NaN, of which [unique()] keeps one.  With text in the column
    as well, [sorted] raises [TypeError], since Python cannot order a NaN
    against text; with missing cells only, [st.multiselect] raises
    [StreamlitAPIException], since the NaN of the default list is not found
    among the options.  Either way the run ends there, which is [None]
    here: the widget is built only for a column without a missing cell. *)
Definition sorted_unique_cells (cells : list (option string))
    : option (list (option string)) :=
  if existsb is_null cells
  then None
  else Some (map Some (sorted_unique (text_cells cells))).

(** The three multiselects are given their whole option list as
    [default]; this is the selection of a user who touches nothing.  The
    [year] column is text after loading and always sorts. *)
Definition default_selection (df_raw : DataFrame) : option FilterSpec :=
  match sorted_unique_cells (map region df_raw),
        sorted_unique_cells (map category df_raw) with
  | Some rs, Some cs =>
      Some {| years := sorted_unique (map year df_raw);
              regions := rs;
              categories := cs |}
  | _, _ => None
  end.

Close Scope string_scope.

(* ================================================================== *)
(** * The arithmetic of a numeric column *)

(** pandas adds the cells of a column in the arithmetic of its dtype:
    [int64], which wraps around, when every cell of the CSV column is an
    integer, and [float64], which rounds each addition, otherwise.  The
    sums of [groupby(...)[col].sum()] and [Series.sum()] are given here
    over any number type [num] with its addition: [read] is how the dtype
    holds a cell of the CSV, and a null cell is skipped.

    The cells are added here from the first row to the last.  The order
    in which pandas adds them is its own (pairwise in [Series.sum], with
    a compensation term in the grouped sum), so these definitions give
    the number that pandas computes where the order does not matter:
    where the addition is associative and commutative ([SumLaws]), as
    that of [int64] is; that of [float64] is not associative. *)
Class SumLaws {num : Type} (add : num -> num -> num) (zero : num) : Prop := {
  add_assoc : forall a b c : num, add (add a b) c = add a (add b c);
  add_comm : forall a b : num, add a b = add b a;
  add_zero : add zero zero = zero
}.

Section SumsIn.
Context {num : Type} (add : num -> num -> num) (zero : num) (read : Q -> num).

Definition add_present (col : Row -> option Q) (r : Row) (acc : num) : num :=
  match col r with
  | Some q => add acc (read q)
  | None => acc
  end.

Definition groupby_sum_in {K} `{Ord K} (key : Row -> option K)
    (col : Row -> option Q) (df : DataFrame) : list (K * num) :=
  aggregate key zero (add_present col) df.

Definition series_sum_in (col : Row -> option Q) (df : DataFrame) : num :=
  fold_left (fun acc r => add_present col r acc) df zero.

(** The sum of a list of numbers, as [Series.sum()] over a grouped
    result. *)
Definition sum_in (l : list num) : num := fold_left add l zero.

(** The sum of the slots of a grouped result whose key passes [test],
    added to [z]. *)
Definition sum_where {K} (test : K -> bool) (z : num) (m : list (K * num))
    : num :=
  fold_left add (map snd (filter (fun e => test (fst e)) m)) z.

(** The sum of the entries of a two-key grouped sum whose first key is
    [a]: a row of the matrix the frame pivots to. *)
Definition marginal_in {A B} `{Ord A} (a : A) (g : list ((A * B) * num))
    : num :=
  sum_in (map snd (filter (fun e => key_eqb (fst (fst e)) a) g)).
End SumsIn.

(** [int64]: two's complement on 64 bits. *)
Definition wrap64 (z : Z) : Z := ((z + 2 ^ 63) mod 2 ^ 64 - 2 ^ 63)%Z.

Definition add64 (a b : Z) : Z := wrap64 (a + b).

(** The integer that an [int64] column holds for a cell of the CSV. *)
Definition int64_of (q : Q) : Z := (Qnum q / Z.pos (Qden q))%Z.

(** The rows with a key that passes a test. *)
Definition keyed {K} (key : Row -> option K) (test : K -> bool) (r : Row)
    : bool :=
  match key r with Some k => test k | None => false end.

(** Two grouped results with the same keys and, slot by slot, the same
    rational. *)
Definition same_slots {K} (m m' : list (K * Q)) : Prop :=
  Forall2 (fun x y => fst x = fst y /\ snd x == snd y) m m'.

(* ================================================================== *)
(** * Readings of the views used in the statements below *)

(** The counts of [value_counts] before they are sorted: one slot per
    value, in the order the values are first met. *)
Definition tally {K} `{Ord K} (col : Row -> option K) (df : DataFrame)
    : list (K * nat) :=
  fold_left
    (fun acc r => match col r with Some k => bump k acc | None => acc end)
    df [].

(** What one row does to the counts. *)
Definition tally_step {K} `{Ord K} (col : Row -> option K)
    (acc : list (K * nat)) (r : Row) : list (K * nat) :=
  match col r with Some k => bump k acc | None => acc end.

(** The count a value has reached, 0 when it has no slot yet. *)
Definition count_of {K} `{Ord K} (k : K) (m : list (K * nat)) : nat :=
  match lookup k m with Some n => n | None => 0%nat end.





(** The widgets of a kind in a run. *)
Definition is_warning (w : Widget) : bool :=
  match w with st_warning _ => true | _ => false end.

(* ================================================================== *)
(** * Filtering *)

Lemma option_eqb_string_eq (x y : option string) :
  option_eqb String.eqb x y = true <-> x = y.
Proof.
  destruct x as [a|], y as [b|]; simpl; split; intros E;
    try discriminate; try reflexivity.
  - apply String.eqb_eq in E. now subst.
  - inversion E. apply String.eqb_refl.
Qed.

Lemma isin_string (values : list string) (x : string) :
  isin String.eqb values x = true <-> In x values.
Proof.
  unfold isin. rewrite existsb_exists. split.
  - intros [y [Hy E]]. apply String.eqb_eq in E. now subst.
  - intros Hx. exists x. split; [assumption | apply String.eqb_refl].
Qed.

Lemma isin_option_string (values : list (option string)) (x : option string) :
  isin (option_eqb String.eqb) values x = true <-> In x values.
Proof.
  unfold isin. rewrite existsb_exists. split.
  - intros [y [Hy E]]. apply option_eqb_string_eq in E. now subst.
  - intros Hx. exists x. split; [assumption | now apply option_eqb_string_eq].
Qed.

Lemma mask_spec (f : FilterSpec) (r : Row) :
  mask f r = true <->
  In (year r) (years f) /\ In (region r) (regions f) /\
  In (category r) (categories f).
Proof.
  unfold mask. rewrite !andb_true_iff, isin_string, !isin_option_string.
  tauto.
Qed.

Lemma filter_all_false {A} (p : A -> bool) (l : list A) :
  (forall x, p x = false) -> filter p l = [].
Proof.
  intros Hp. induction l as [|x l IH]; simpl; [reflexivity|].
  now rewrite Hp.
Qed.

Lemma filter_length_mono {A} (p q : A -> bool) (l : list A) :
  (forall x, p x = true -> q x = true) ->
  (length (filter p l) <= length (filter q l))%nat.
Proof.
  intros Hpq. induction l as [|x l IH]; simpl; [lia|].
  destruct (p x) eqn:Px.
  - rewrite (Hpq x Px). simpl. lia.
  - destruct (q x); simpl; lia.
Qed.

Lemma mask_mono (f f' : FilterSpec) :
  incl (years f) (years f') -> incl (regions f) (regions f') ->
  incl (categories f) (categories f') ->
  forall r, mask f r = true -> mask f' r = true.
Proof.
  intros Hy Hr Hc r. rewrite !mask_spec. intros (Y & R & C).
  repeat split; [apply Hy | apply Hr | apply Hc]; assumption.
Qed.

Lemma apply_filters_mono (df_raw : DataFrame) (f f' : FilterSpec) :
  incl (years f) (years f') -> incl (regions f) (regions f') ->
  incl (categories f) (categories f') ->
  incl (apply_filters df_raw f) (apply_filters df_raw f') /\
  (length (apply_filters df_raw f) <= length (apply_filters df_raw f'))%nat.
Proof.
  intros Hy Hr Hc. pose proof (mask_mono f f' Hy Hr Hc) as M. split.
  - intros r. unfold apply_filters. rewrite !filter_In.
    intros [I E]. split; [assumption | now apply M].
  - now apply filter_length_mono.
Qed.

(** C1. A record is in the filtered frame exactly when it is in the loaded
    frame and its year, its region and its category are each in their
    allow-list; with any allow-list empty, the filtered frame is empty. *)
Theorem C1_filter_is_intersection_of_allow_lists (df_raw : DataFrame) :
  (forall (f : FilterSpec) (r : Row),
     In r (apply_filters df_raw f) <->
     In r df_raw /\ allows (years f) (year r) /\
     allows (regions f) (region r) /\ allows (categories f) (category r))
  /\ (forall rs cs,
        apply_filters df_raw {| years := []; regions := rs; categories := cs |} = [])
  /\ (forall ys cs,
        apply_filters df_raw {| years := ys; regions := []; categories := cs |} = [])
  /\ (forall ys rs,
        apply_filters df_raw {| years := ys; regions := rs; categories := [] |} = []).
Proof.
  split; [|repeat split].
  - intros f r. unfold apply_filters, allows.
    rewrite filter_In, mask_spec. reflexivity.
  - intros rs cs. apply filter_all_false. intros r. reflexivity.
  - intros ys cs. apply filter_all_false. intros r. unfold mask. simpl.
    now rewrite andb_false_r.
  - intros ys rs. apply filter_all_false. intros r. unfold mask. simpl.
    now rewrite andb_false_r.
Qed.

(** C2. Widening the allow-list of one dimension, the other two being the
    same, keeps every record that passed and so never lowers the row
    count. *)
Theorem C2_filter_monotonic (df_raw : DataFrame) (ys : list string)
    (rs cs : list (option string)) :
  (forall ys', incl ys ys' ->
     let f := {| years := ys; regions := rs; categories := cs |} in
     let f' := {| years := ys'; regions := rs; categories := cs |} in
     incl (apply_filters df_raw f) (apply_filters df_raw f') /\
     (length (apply_filters df_raw f) <= length (apply_filters df_raw f'))%nat)
  /\ (forall rs', incl rs rs' ->
     let f := {| years := ys; regions := rs; categories := cs |} in
     let f' := {| years := ys; regions := rs'; categories := cs |} in
     incl (apply_filters df_raw f) (apply_filters df_raw f') /\
     (length (apply_filters df_raw f) <= length (apply_filters df_raw f'))%nat)
  /\ (forall cs', incl cs cs' ->
     let f := {| years := ys; regions := rs; categories := cs |} in
     let f' := {| years := ys; regions := rs; categories := cs' |} in
     incl (apply_filters df_raw f) (apply_filters df_raw f') /\
     (length (apply_filters df_raw f) <= length (apply_filters df_raw f'))%nat).
Proof.
  split; [|split]; intros wider Hwider; simpl; apply apply_filters_mono; simpl;
    solve [assumption | apply incl_refl].
Qed.

Lemma C2_filter_monotonic_witness :
  (length (apply_filters scenario
             {| years := ["2022"%string];
                regions := regions all_of_scenario;
                categories := categories all_of_scenario |})
   <= length (apply_filters scenario all_of_scenario))%nat.
Proof.
  apply (proj1 (C2_filter_monotonic scenario ["2022"%string]
                  (regions all_of_scenario) (categories all_of_scenario))
               (years all_of_scenario)).
  intros y [<-|[]]. simpl. left. reflexivity.
Defined.

(* ================================================================== *)
(** * Loading *)

Lemma upload_branch_load_data (csv : list RawRow) :
  upload_branch csv = load_data csv.
Proof. reflexivity. Qed.

(** C3, as stated, fails: a row dated 17 May 2023 whose [year] cell reads
    2022 is loaded with the year "2022", which is not the calendar year of
    its date. *)
Lemma C3_year_not_recomputed :
  let raw := raw_sample (Some {| ts_year := 2023; ts_month := 5; ts_day := 17 |}) 2022 in
  load_data [raw] = [derive raw] /\
  year (derive raw) = "2022"%string /\
  calendar_year_text raw = Some "2023"%string /\
  Some (year (derive raw)) <> calendar_year_text raw.
Proof.
  simpl. repeat split; try reflexivity. discriminate.
Qed.

(** C3, amended. Both loading paths give the same frame, row for row from
    the parsed CSV: the month index is the calendar month of the row's sale
    date, and the year is the text of the CSV's own [year] cell. *)
Theorem C3_loader_derived_fields (csv : list RawRow) :
  upload_branch csv = load_data csv /\
  Forall2
    (fun raw r =>
       sale_date r = raw_sale_date raw /\
       month_num r = dt_month (sale_date r) /\
       year r = astype_str (raw_year raw))
    csv (load_data csv).
Proof.
  split; [reflexivity|].
  induction csv as [|raw csv IH]; simpl; constructor.
  - repeat split.
  - exact IH.
Qed.

(* ================================================================== *)
(** * The empty result *)

(** C4, as stated, fails: with the year filter set to 2099 nothing of the
    scenario is left, and the run of the Data Quality page is the warning
    alone: no view, no download button. *)
Lemma C4_empty_result_stops_the_run :
  apply_filters scenario year_2099 = [] /\
  main scenario year_2099 DataQuality = [st_warning no_data] /\
  existsb is_download (main scenario year_2099 DataQuality) = false /\
  existsb is_view (main scenario year_2099 DataQuality) = false.
Proof. repeat split. Qed.

(** C4, amended. When no record passes the filters, the run shows the
    "no data" warning and stops: whatever the page, the warning is the only
    widget, so no view is rendered and nothing is offered for download. *)
Theorem C4_empty_result_is_warning_only (df_raw : DataFrame)
    (sel : FilterSpec) (page : Page) :
  apply_filters df_raw sel = [] ->
  main df_raw sel page = [st_warning no_data] /\
  existsb is_view (main df_raw sel page) = false /\
  existsb is_download (main df_raw sel page) = false.
Proof.
  intros E. unfold main. rewrite E. repeat split.
Qed.

Lemma C4_empty_result_is_warning_only_witness :
  main scenario year_2099 Overview = [st_warning no_data] /\
  existsb is_view (main scenario year_2099 Overview) = false /\
  existsb is_download (main scenario year_2099 Overview) = false.
Proof.
  apply (C4_empty_result_is_warning_only scenario year_2099 Overview).
  reflexivity.
Defined.

(* ================================================================== *)
(** * Raw data table and download *)

Lemma main_nonempty (df_raw : DataFrame) (sel : FilterSpec) (page : Page) :
  apply_filters df_raw sel <> [] ->
  main df_raw sel page
  = render page (float_months df_raw) (apply_filters df_raw sel).
Proof.
  intros N. unfold main. destruct (apply_filters df_raw sel); congruence.
Qed.

(** The raw-data table and the download button of the Data Quality page
    are the only widgets of their kind on it, and carry the first 500 rows
    and the CSV of the whole frame. *)
Lemma data_quality_table (df shown : DataFrame) :
  In (st_dataframe (FRows shown)) (data_quality df) -> shown = head 500 df.
Proof.
  unfold data_quality, missing_values. intros I.
  apply in_app_or in I. destruct I as [I|I].
  - destruct I as [I|[I|[]]]; discriminate I.
  - apply in_app_or in I. destruct I as [I|I].
    + destruct (miss df); destruct I as [I|I]; try discriminate I;
        try contradiction.
      destruct I as [I|[]]. discriminate I.
    + repeat (destruct I as [I|I]; [try discriminate I|]); try contradiction.
      now inversion I.
Qed.

Lemma data_quality_button (df : DataFrame) (label : string) (csv : Csv)
    (file_name mime : string) :
  In (st_download_button label csv file_name mime) (data_quality df) ->
  csv = to_csv df.
Proof.
  unfold data_quality, missing_values, download. intros I.
  apply in_app_or in I. destruct I as [I|I].
  - destruct I as [I|[I|[]]]; discriminate I.
  - apply in_app_or in I. destruct I as [I|I].
    + destruct (miss df); destruct I as [I|I]; try discriminate I;
        try contradiction.
      destruct I as [I|[]]. discriminate I.
    + repeat (destruct I as [I|I]; [try discriminate I|]); try contradiction.
      now inversion I.
Qed.

(** C10. On the Data Quality page of a non-empty filtered frame there is a
    raw-data table and a download button; the table shows the first 500
    rows of the filtered frame, all of them when there are no more, and the
    CSV of the button holds every filtered row, in frame order; so the
    table is a prefix of the download, and past 500 rows a strict one. *)
Theorem C10_table_is_prefix_of_download (df_raw : DataFrame)
    (sel : FilterSpec) :
  let df := apply_filters df_raw sel in
  let run := main df_raw sel DataQuality in
  df <> [] ->
  (exists shown, In (st_dataframe (FRows shown)) run)
  /\ (exists label csv file_name mime,
        In (st_download_button label csv file_name mime) run)
  /\ forall shown label csv file_name mime,
       In (st_dataframe (FRows shown)) run ->
       In (st_download_button label csv file_name mime) run ->
       shown = firstn 500 df
       /\ length shown = Nat.min 500 (length df)
       /\ body csv = df
       /\ (exists rest, body csv = shown ++ rest)
       /\ ((500 < length df)%nat ->
           exists rest, rest <> [] /\ body csv = shown ++ rest /\
                        length rest = (length df - 500)%nat).
Proof.
  intros df run N. unfold run.
  rewrite (@main_nonempty df_raw sel DataQuality N). fold df.
  unfold render. split; [|split].
  - exists (head 500 df). unfold data_quality.
    apply in_or_app. right. apply in_or_app. right.
    do 6 right. left. reflexivity.
  - exists "⬇️ Download Filtered Data as CSV"%string, (to_csv df),
      "samsung_filtered.csv"%string, "text/csv"%string.
    unfold data_quality. apply in_or_app. right. apply in_or_app. right.
    do 7 right. left. reflexivity.
  - intros shown label csv file_name mime It Ib.
    apply data_quality_table in It. apply data_quality_button in Ib.
    subst shown csv. unfold head, to_csv. cbn [body].
    assert (P : df = firstn 500 df ++ skipn 500 df)
      by (symmetry; apply firstn_skipn).
    split; [reflexivity|]. split; [apply length_firstn|].
    split; [reflexivity|]. split; [now exists (skipn 500 df)|].
    intros L. exists (skipn 500 df).
    pose proof (length_skipn 500 df) as S. split; [|split].
    + intros E. rewrite E in S. change (length (@nil Row)) with O in S. lia.
    + exact P.
    + exact S.
Qed.

Lemma C10_table_is_prefix_of_download_witness :
  exists shown label csv file_name mime,
    In (st_dataframe (FRows shown))
       (main (repeat phone_2022 501) all_of_scenario DataQuality)
    /\ In (st_download_button label csv file_name mime)
          (main (repeat phone_2022 501) all_of_scenario DataQuality)
    /\ length shown = 500%nat
    /\ exists rest, rest <> [] /\ body csv = shown ++ rest /\ length rest = 1%nat.
Proof.
  set (df := apply_filters (repeat phone_2022 501) all_of_scenario).
  assert (L : length df = 501%nat) by (vm_compute; reflexivity).
  assert (N : df <> []) by (intros E; rewrite E in L; discriminate L).
  destruct (C10_table_is_prefix_of_download _ _ N)
    as ((shown & It) & (label & csv & file_name & mime & Ib) & H).
  exists shown, label, csv, file_name, mime.
  split; [exact It|]. split; [exact Ib|].
  destruct (H shown label csv file_name mime It Ib) as (_ & Ls & _ & _ & S).
  fold df in Ls, S. rewrite L in Ls, S. split; [exact Ls|].
  apply S. lia.
Defined.

(* ================================================================== *)
(** * Key order laws *)

Lemma ascii_compare_refl (a : ascii) : Ascii.compare a a = Eq.
Proof. unfold Ascii.compare. apply N.compare_refl. Qed.

Lemma ascii_compare_trans (a b c : ascii) :
  Ascii.compare a b = Lt -> Ascii.compare b c = Lt -> Ascii.compare a c = Lt.
Proof.
  unfold Ascii.compare. rewrite !N.compare_lt_iff. apply N.lt_trans.
Qed.

Lemma string_compare_refl (s : string) : String.compare s s = Eq.
Proof.
  induction s as [|a s IH]; simpl; [reflexivity|].
  now rewrite ascii_compare_refl.
Qed.

Lemma string_compare_trans (a b c : string) :
  String.compare a b = Lt -> String.compare b c = Lt -> String.compare a c = Lt.
Proof.
  revert b c. induction a as [|x a IH]; intros [|y b] [|z c]; simpl;
    try discriminate; try reflexivity.
  destruct (Ascii.compare x y) eqn:XY; try discriminate;
    destruct (Ascii.compare y z) eqn:YZ; try discriminate; intros H1 H2.
  - apply Ascii.compare_eq_iff in XY, YZ. subst.
    rewrite ascii_compare_refl. now apply IH with b.
  - apply Ascii.compare_eq_iff in XY. subst. now rewrite YZ.
  - apply Ascii.compare_eq_iff in YZ. subst. now rewrite XY.
  - now rewrite (ascii_compare_trans _ _ _ XY YZ).
Qed.

#[export] Instance OrdLaws_string : OrdLaws Ord_string.
Proof.
  split.
  - intros a b. split.
    + apply String.compare_eq_iff.
    + intros ->. apply string_compare_refl.
  - apply String.compare_antisym.
  - apply string_compare_trans.
Qed.

Section KeyFacts.
Context {K : Type} {O : Ord K} {OL : OrdLaws O}.

Lemma key_eqb_eq (a b : K) : key_eqb a b = true <-> a = b.
Proof.
  unfold key_eqb. rewrite <- cmp_eq. destruct (cmp a b); split; congruence.
Qed.

Lemma key_eqb_refl (a : K) : key_eqb a a = true.
Proof. now apply key_eqb_eq. Qed.

Lemma cmp_lt_neq (a b : K) : cmp a b = Lt -> key_eqb b a = false.
Proof.
  intros L. unfold key_eqb. rewrite cmp_antisym, L. reflexivity.
Qed.

Lemma cmp_gt_lt (a b : K) : cmp a b = Gt -> cmp b a = Lt.
Proof. intros G. rewrite cmp_antisym, G. reflexivity. Qed.
End KeyFacts.

(* ================================================================== *)
(** * The grouping pass *)

Section GroupByFacts.
Context {K : Type} {O : Ord K} {OL : OrdLaws O} {A : Type}.

Lemma upsert_keys (k : K) (fresh : A) (f : A -> A) (m : list (K * A)) :
  forall e, In e (upsert k fresh f m) -> fst e = k \/ In (fst e) (map fst m).
Proof.
  induction m as [|[k' a] m IH]; simpl; intros e.
  - intros [<-|[]]. now left.
  - destruct (cmp k k') eqn:C; simpl.
    + intros [<-|I]; [right; now left | right; right; now apply in_map].
    + intros [<-|[<-|I]]; [now left | right; now left
                          | right; right; now apply in_map].
    + intros [<-|I]; [right; now left|].
      destruct (IH e I) as [E|I']; [now left | right; now right].
Qed.

Lemma upsert_ascending (k : K) (fresh : A) (f : A -> A) (m : list (K * A)) :
  ascending_keys m -> ascending_keys (upsert k fresh f m).
Proof.
  unfold ascending_keys.
  induction m as [|[k' a] m IH]; simpl; intros S.
  - repeat constructor.
  - inversion S as [|x l S' F]; subst.
    destruct (cmp k k') eqn:C.
    + constructor; [assumption|].
      rewrite Forall_forall in *. intros e I. exact (F e I).
    + constructor; [assumption|]. constructor; [exact C|].
      rewrite Forall_forall in *. intros e I. simpl.
      apply cmp_trans with k'; [exact C | exact (F e I)].
    + constructor; [now apply IH|].
      rewrite Forall_forall in *. intros e I. simpl.
      destruct (upsert_keys _ _ _ _ _ I) as [E|I'].
      * rewrite E. now apply cmp_gt_lt.
      * apply in_map_iff in I'. destruct I' as (e' & E & I').
        rewrite <- E. exact (F e' I').
Qed.

Lemma lookup_ascending_head (k k' : K) (a : A) (m : list (K * A)) :
  ascending_keys ((k', a) :: m) -> cmp k k' = Lt -> lookup k ((k', a) :: m) = None.
Proof.
  unfold ascending_keys. revert k' a.
  induction m as [|[k2 a2] m IH]; intros k' a S L; simpl.
  - unfold key_eqb. now rewrite L.
  - unfold key_eqb at 1. rewrite L.
    inversion S as [|x l S' F]; subst.
    apply IH; [assumption|].
    inversion F; subst. simpl in *. now apply cmp_trans with k'.
Qed.

Lemma lookup_upsert (k k0 : K) (fresh : A) (f : A -> A) (m : list (K * A)) :
  ascending_keys m ->
  lookup k0 (upsert k fresh f m) =
    if key_eqb k0 k
    then Some (match lookup k m with Some a => f a | None => fresh end)
    else lookup k0 m.
Proof.
  induction m as [|[k' a] m IH]; simpl; intros S.
  - destruct (key_eqb k0 k); reflexivity.
  - inversion S as [|x l S' F]; subst.
    destruct (cmp k k') eqn:C.
    + apply cmp_eq in C. subst k'. simpl.
      rewrite (key_eqb_refl k).
      destruct (key_eqb k0 k); reflexivity.
    + assert (N : key_eqb k k' = false) by (unfold key_eqb; now rewrite C).
      rewrite N. simpl.
      destruct (key_eqb k0 k) eqn:E; [|reflexivity].
      apply key_eqb_eq in E. subst k0.
      pose proof (lookup_ascending_head S C) as L. simpl in L.
      rewrite N in L. now rewrite L.
    + assert (N : key_eqb k k' = false) by (unfold key_eqb; now rewrite C).
      assert (N' : key_eqb k' k = false)
        by (unfold key_eqb; rewrite cmp_antisym, C; reflexivity).
      rewrite N. simpl. rewrite (IH S').
      destruct (key_eqb k0 k') eqn:E; [|reflexivity].
      apply key_eqb_eq in E. rewrite E, N'. reflexivity.
Qed.

Lemma lookup_in (k : K) (a : A) (m : list (K * A)) :
  ascending_keys m -> In (k, a) m -> lookup k m = Some a.
Proof.
  unfold ascending_keys.
  induction m as [|[k' a'] m IH]; simpl; intros S I; [contradiction|].
  inversion S as [|x l S' F]; subst.
  destruct I as [E|I].
  - inversion E; subst. now rewrite key_eqb_refl.
  - rewrite Forall_forall in F. specialize (F _ I). simpl in F.
    rewrite (cmp_lt_neq _ _ F). now apply IH.
Qed.
End GroupByFacts.

Section AggregateFacts.
Context {K : Type} {O : Ord K} {OL : OrdLaws O} {A : Type}.
Variables (key : Row -> option K) (empty : A) (step : Row -> A -> A).

Lemma pass_ascending (df : DataFrame) :
  forall acc, ascending_keys acc -> ascending_keys (fold_left (pass key empty step) df acc).
Proof.
  induction df as [|r df IH]; simpl; intros acc S; [assumption|].
  apply IH. unfold pass. destruct (key r); [|assumption].
  now apply upsert_ascending.
Qed.

Lemma aggregate_ascending (df : DataFrame) :
  ascending_keys (aggregate key empty step df).
Proof. apply (pass_ascending df). constructor. Qed.

Lemma key_eqb_sym (a b : K) : key_eqb a b = key_eqb b a.
Proof.
  destruct (key_eqb a b) eqn:E, (key_eqb b a) eqn:E'; try reflexivity.
  - apply key_eqb_eq in E. subst. rewrite key_eqb_refl in E'. discriminate.
  - apply key_eqb_eq in E'. subst. rewrite key_eqb_refl in E. discriminate.
Qed.

(** The slot of a key after the pass: the fold of [step] over the rows
    of its group, starting from what the slot held. *)
Lemma lookup_pass (k : K) (df : DataFrame) :
  forall acc, ascending_keys acc ->
  lookup k (fold_left (pass key empty step) df acc) =
    match group_rows key k df with
    | [] => lookup k acc
    | rows =>
        Some (fold_left (fun a r => step r a) rows
                (match lookup k acc with Some a => a | None => empty end))
    end.
Proof.
  induction df as [|r df IH]; simpl; intros acc S; [reflexivity|].
  assert (S' : ascending_keys (pass key empty step acc r)).
  { unfold pass. destruct (key r); [now apply upsert_ascending | assumption]. }
  rewrite (IH _ S'). unfold pass. destruct (key r) as [k'|]; [|reflexivity].
  rewrite (lookup_upsert k' k _ _ S), (key_eqb_sym k k').
  destruct (key_eqb k' k) eqn:E.
  - apply key_eqb_eq in E. subst k'. simpl.
    destruct (lookup k acc); destruct (group_rows key k df); reflexivity.
  - reflexivity.
Qed.

Lemma lookup_aggregate (k : K) (df : DataFrame) :
  lookup k (aggregate key empty step df) =
    match group_rows key k df with
    | [] => None
    | rows => Some (fold_left (fun a r => step r a) rows empty)
    end.
Proof.
  unfold aggregate. rewrite lookup_pass by constructor. reflexivity.
Qed.

(** Every slot of the result holds the fold over the rows of its group,
    and the group is not empty. *)
Lemma aggregate_in (k : K) (a : A) (df : DataFrame) :
  In (k, a) (aggregate key empty step df) ->
  group_rows key k df <> [] /\
  a = fold_left (fun a r => step r a) (group_rows key k df) empty.
Proof.
  intros I. apply lookup_in in I; [|apply aggregate_ascending].
  rewrite lookup_aggregate in I.
  destruct (group_rows key k df); [discriminate|].
  split; [discriminate | congruence].
Qed.

(** Every non-empty group has its slot. *)
Lemma aggregate_has_group (k : K) (df : DataFrame) :
  group_rows key k df <> [] ->
  exists a, In (k, a) (aggregate key empty step df).
Proof.
  intros N. pose proof (lookup_aggregate k df) as L.
  destruct (group_rows key k df) as [|r rows]; [congruence|].
  clear N. revert L. generalize (aggregate key empty step df) as m.
  induction m as [|[k' a'] m IH]; simpl; [discriminate|].
  destruct (key_eqb k k') eqn:E.
  - apply key_eqb_eq in E. subst. intros _. eexists. left. reflexivity.
  - intros L. destruct (IH L) as [a I]. exists a. now right.
Qed.
End AggregateFacts.

(* ================================================================== *)
(** * Sums *)

Lemma filter_all_true {A} (p : A -> bool) (l : list A) :
  (forall x, In x l -> p x = true) -> filter p l = l.
Proof.
  induction l as [|x l IH]; simpl; intros Hp; [reflexivity|].
  rewrite (Hp x (or_introl eq_refl)). f_equal. apply IH.
  intros y I. apply Hp. now right.
Qed.

(** C8, as stated, fails: a record without a country belongs to no country
    group, so the per-country revenue sums (100) fall short of the total
    revenue (150). *)
Lemma C8_null_key_leaves_the_partition :
  let df := [ sample "2022" None (Some "US") None (Some "Phone") None (Some 50) None;
              sample "2022" None (Some "US") (Some "USA") (Some "Phone") None (Some 100) None ]%string in
  groupby_sum country revenue_usd df = [("USA"%string, 100)] /\
  values_total (groupby_sum country revenue_usd df) == 100 /\
  series_sum revenue_usd df == 150 /\
  ~ values_total (groupby_sum country revenue_usd df) == series_sum revenue_usd df.
Proof.
  simpl. repeat split; try reflexivity. intros E. discriminate E.
Qed.

(* ================================================================== *)
(** * Means *)

Lemma non_null_cons (col : Row -> option Q) (r : Row) (rows : DataFrame) :
  non_null col (r :: rows) =
  match col r with Some v => v :: non_null col rows | None => non_null col rows end.
Proof. unfold non_null. simpl. destruct (col r); reflexivity. Qed.

(** The running pair of a mean: the sum and the number of the non-null
    values met so far. *)
Lemma mean_fold (col : Row -> option Q) (rows : DataFrame) :
  forall acc : Q * nat,
    let out := fold_left (fun a r => mean_step col r a) rows acc in
    fst out == fst acc + total (non_null col rows) /\
    snd out = (snd acc + length (non_null col rows))%nat.
Proof.
  induction rows as [|r rows IH]; intros acc.
  - split; [unfold non_null; simpl; ring | unfold non_null; simpl; lia].
  - cbn [fold_left]. cbv zeta.
    destruct (IH (mean_step col r acc)) as [S N].
    rewrite S, N, non_null_cons. unfold mean_step.
    destruct (col r); simpl; split; try ring; lia.
Qed.

Lemma mean_finish_spec (col : Row -> option Q) (rows : DataFrame) :
  opt_Qeq (mean_finish (fold_left (fun a r => mean_step col r a) rows (0, O)))
          (spec_mean col rows).
Proof.
  destruct (mean_fold col rows (0, O)) as [S N]. simpl in S, N.
  unfold mean_finish, spec_mean. rewrite N.
  destruct (non_null col rows) as [|v vs] eqn:E; simpl; [exact I|].
  rewrite S. unfold of_nat. simpl length. rewrite Qplus_0_l. reflexivity.
Qed.

Lemma opt_Qeq_none (v : option Q) : opt_Qeq v None -> v = None.
Proof. destruct v; simpl; [contradiction | reflexivity]. Qed.

Lemma spec_mean_all_null (col : Row -> option Q) (rows : DataFrame) :
  non_null col rows = [] -> spec_mean col rows = None.
Proof. unfold spec_mean. now intros ->. Qed.

(** C6. Each group's mean is the sum of the group's non-null values over
    their number, every group has its mean, and a group (or a whole column,
    for the KPI) without a non-null value has an undefined mean, not zero. *)
Theorem C6_mean_excludes_nulls (key : Row -> option string)
    (col : Row -> option Q) (df : DataFrame) :
  (forall k v, In (k, v) (groupby_mean key col df) ->
     opt_Qeq v (spec_mean col (group_rows key k df)) /\
     (non_null col (group_rows key k df) = [] -> v = None))
  /\ (forall k, group_rows key k df <> [] ->
        exists v, In (k, v) (groupby_mean key col df))
  /\ opt_Qeq (series_mean col df) (spec_mean col df)
  /\ (non_null col df = [] -> series_mean col df = None).
Proof.
  assert (G : forall k v, In (k, v) (groupby_mean key col df) ->
                opt_Qeq v (spec_mean col (group_rows key k df))).
  { intros k v I. unfold groupby_mean in I. apply in_map_iff in I.
    destruct I as ([k' a] & E & I). simpl in E. inversion E; subst.
    apply aggregate_in in I. destruct I as [_ ->].
    apply mean_finish_spec. }
  assert (S : opt_Qeq (series_mean col df) (spec_mean col df))
    by apply mean_finish_spec.
  split; [|split; [|split]].
  - intros k v I. split; [now apply G|].
    intros E. apply opt_Qeq_none.
    rewrite <- (spec_mean_all_null col _ E). now apply G.
  - intros k N.
    destruct (aggregate_has_group key (0, O) (mean_step col) k df N) as [a I].
    exists (mean_finish a). unfold groupby_mean.
    apply in_map_iff. exists (k, a). split; [reflexivity | exact I].
  - exact S.
  - intros E. apply opt_Qeq_none.
    rewrite <- (spec_mean_all_null col _ E). exact S.
Qed.

Lemma C6_mean_excludes_nulls_witness :
  opt_Qeq None (spec_mean customer_rating (group_rows year_key "2023"%string scenario))
  /\ opt_Qeq (Some 4) (spec_mean customer_rating (group_rows category "Phone"%string scenario)).
Proof.
  split.
  - apply (proj1 (C6_mean_excludes_nulls year_key customer_rating scenario)).
    vm_compute. right. left. reflexivity.
  - apply (proj1 (C6_mean_excludes_nulls category customer_rating scenario)).
    vm_compute. left. reflexivity.
Defined.

(* ================================================================== *)
(** * Correlation input *)

Lemma complete_nth (row : list (option Q)) (i : nat) :
  complete row = true -> (i < length row)%nat ->
  exists x, nth i row None = Some x.
Proof.
  unfold complete. rewrite forallb_forall. intros C L.
  pose proof (C _ (nth_In row None L)) as N.
  destruct (nth i row None) as [x|]; [now exists x | discriminate].
Qed.

Lemma forallb_over_map {A B} (f : A -> B) (p : B -> bool) (l : list A) :
  forallb p (map f l) = forallb (fun x => p (f x)) l.
Proof.
  induction l as [|x l IH]; simpl; [reflexivity | now rewrite IH].
Qed.

Lemma dropna_select (cols : list (Row -> option Q)) (df : DataFrame) :
  dropna (select cols df) = select cols (complete_rows cols df).
Proof.
  unfold dropna, select, complete_rows.
  induction df as [|r df IH]; simpl; [reflexivity|].
  unfold complete at 1. rewrite forallb_over_map, IH.
  destruct (forallb (fun c => negb (is_null (c r))) cols); reflexivity.
Qed.

Lemma pair_obs_complete (i j width : nat) (rows : list (list (option Q))) :
  (i < width)%nat -> (j < width)%nat ->
  Forall (fun row => complete row = true /\ length row = width) rows ->
  pair_obs i j rows = map (observation i j) rows.
Proof.
  intros Li Lj F. unfold pair_obs.
  induction F as [|row rows [C W] F IH]; simpl; [reflexivity|].
  rewrite IH. subst width.
  destruct (@complete_nth row i C Li) as [x Ex].
  destruct (@complete_nth row j C Lj) as [y Ey].
  unfold observation. rewrite Ex, Ey. reflexivity.
Qed.

Lemma num_rows_complete (df : DataFrame) :
  Forall (fun row => complete row = true /\ length row = length corr_columns)
         (num df).
Proof.
  unfold num, dropna, select. rewrite Forall_forall. intros row I.
  apply filter_In in I. destruct I as [I C]. split; [exact C|].
  apply in_map_iff in I. destruct I as (r & <- & _). apply length_map.
Qed.

(** C7. The frame fed to the correlation holds exactly the records with a
    value in every one of the six selected columns, and every entry of the
    matrix, whatever its pair of columns, is computed from one observation
    per such record: a null in any selected column removes the record from
    all entries. *)
Theorem C7_correlation_is_listwise (df : DataFrame) :
  num df = select corr_columns (complete_rows corr_columns df)
  /\ (forall r, In r (complete_rows corr_columns df) <->
        In r df /\ Forall (fun c => c r <> None) corr_columns)
  /\ corr df =
       map (fun i => map (fun j => map (observation i j) (num df))
                         (seq 0 (length corr_columns)))
           (seq 0 (length corr_columns))
  /\ Forall (Forall (fun obs => length obs = length (complete_rows corr_columns df)))
            (corr df).
Proof.
  assert (E : corr df =
       map (fun i => map (fun j => map (observation i j) (num df))
                         (seq 0 (length corr_columns)))
           (seq 0 (length corr_columns))).
  { unfold corr, corr_obs. apply map_ext_in. intros i Ii.
    apply map_ext_in. intros j Ij. apply in_seq in Ii, Ij.
    apply pair_obs_complete with (length corr_columns);
      [lia | lia | apply num_rows_complete]. }
  split; [|split; [|split]].
  - apply dropna_select.
  - intros r. unfold complete_rows. rewrite filter_In, forallb_forall, Forall_forall.
    split; intros [I C]; (split; [exact I|]); intros c Ic; specialize (C c Ic).
    + destruct (c r); [discriminate | discriminate C].
    + destruct (c r); [reflexivity | congruence].
  - exact E.
  - rewrite E. rewrite Forall_forall. intros line Il.
    apply in_map_iff in Il. destruct Il as (i & <- & _).
    rewrite Forall_forall. intros obs Io.
    apply in_map_iff in Io. destruct Io as (j & <- & _).
    rewrite length_map. unfold num. rewrite dropna_select.
    unfold select. apply length_map.
Qed.

(* ================================================================== *)
(** * Ranking *)

Lemma StronglySorted_app {A} (R : A -> A -> Prop) (l1 l2 : list A) :
  StronglySorted R l1 -> StronglySorted R l2 ->
  (forall a b, In a l1 -> In b l2 -> R a b) ->
  StronglySorted R (l1 ++ l2).
Proof.
  intros S1 S2 X. induction S1 as [|a l1 S1 IH F]; simpl; [assumption|].
  constructor.
  - apply IH. intros x y Ix Iy. apply X; [now right | assumption].
  - rewrite Forall_forall in *. intros b Ib. apply in_app_or in Ib.
    destruct Ib as [Ib|Ib]; [now apply F | apply X; [now left | assumption]].
Qed.

Lemma StronglySorted_rev {A} (R : A -> A -> Prop) (l : list A) :
  StronglySorted R l -> StronglySorted (fun a b => R b a) (rev l).
Proof.
  intros S. induction S as [|a l S IH F]; simpl; [constructor|].
  apply StronglySorted_app; [assumption | repeat constructor|].
  intros x y Ix [<-|[]]. apply in_rev in Ix.
  rewrite Forall_forall in F. now apply F.
Qed.

Lemma StronglySorted_map {A B} (f : A -> B) (R : B -> B -> Prop) (l : list A) :
  StronglySorted (fun a b => R (f a) (f b)) l -> StronglySorted R (map f l).
Proof.
  intros S. induction S as [|a l S IH F]; simpl; constructor; [assumption|].
  rewrite Forall_forall in *. intros b Ib. apply in_map_iff in Ib.
  destruct Ib as (x & <- & Ix). now apply F.
Qed.

Section SortFacts.
Context {E : Type} (le : E -> E -> bool).
Hypothesis le_total : forall x y, le x y = true \/ le y x = true.
Hypothesis le_trans : forall x y z, le x y = true -> le y z = true -> le x z = true.

Lemma insert_sorted_perm (x : E) (l : list E) :
  Permutation (x :: l) (insert_sorted le x l).
Proof.
  induction l as [|y l IH]; simpl; [reflexivity|].
  destruct (le x y); [reflexivity|].
  rewrite perm_swap. now constructor.
Qed.

Lemma stable_sort_perm (l : list E) : Permutation l (stable_sort le l).
Proof.
  induction l as [|x l IH]; simpl; [reflexivity|].
  rewrite <- insert_sorted_perm. now constructor.
Qed.

Lemma nargsort_perm (ascending : bool) (l : list E) :
  Permutation l (nargsort le ascending l).
Proof.
  unfold nargsort. destruct ascending.
  - apply stable_sort_perm.
  - rewrite <- Permutation_rev, <- stable_sort_perm. apply Permutation_rev.
Qed.

Lemma insert_sorted_sorted (x : E) (l : list E) :
  StronglySorted (fun a b => le a b = true) l ->
  StronglySorted (fun a b => le a b = true) (insert_sorted le x l).
Proof.
  intros S. induction S as [|y l S IH F]; simpl; [repeat constructor|].
  destruct (le x y) eqn:C.
  - constructor; [now constructor|]. constructor; [exact C|].
    rewrite Forall_forall in *. intros z Iz.
    apply le_trans with y; [exact C | now apply F].
  - constructor; [assumption|].
    rewrite Forall_forall in *. intros z Iz.
    apply (Permutation_in _ (Permutation_sym (insert_sorted_perm x l))) in Iz.
    destruct Iz as [<-|Iz]; [|now apply F].
    destruct (le_total x y) as [T|T]; [congruence | exact T].
Qed.

Lemma stable_sort_sorted (l : list E) :
  StronglySorted (fun a b => le a b = true) (stable_sort le l).
Proof.
  induction l as [|x l IH]; simpl; [constructor|].
  now apply insert_sorted_sorted.
Qed.

Lemma nargsort_sorted (ascending : bool) (l : list E) :
  StronglySorted
    (fun a b => if ascending then le a b = true else le b a = true)
    (nargsort le ascending l).
Proof.
  unfold nargsort. destruct ascending.
  - apply stable_sort_sorted.
  - apply (StronglySorted_rev (R := fun a b => le a b = true)).
    apply stable_sort_sorted.
Qed.
End SortFacts.

Lemma by_value_total {K} (x y : K * Q) :
  by_value x y = true \/ by_value y x = true.
Proof.
  unfold by_value. rewrite !Qle_bool_iff.
  destruct (Qlt_le_dec (snd y) (snd x)) as [L|L];
    [right; now apply Qlt_le_weak | now left].
Qed.

Lemma by_value_trans {K} (x y z : K * Q) :
  by_value x y = true -> by_value y z = true -> by_value x z = true.
Proof. unfold by_value. rewrite !Qle_bool_iff. apply Qle_trans. Qed.

Lemma series_split {K} (s : list (K * option Q)) :
  Permutation s (map present (notna s) ++ isna s).
Proof.
  unfold notna, isna. induction s as [|[k [q|]] s IH]; simpl.
  - reflexivity.
  - now constructor.
  - now apply Permutation_cons_app.
Qed.

Lemma isna_null {K} (s : list (K * option Q)) :
  forall e, In e (isna s) -> snd e = None.
Proof.
  intros e I. unfold isna in I. apply filter_In in I.
  destruct I as [_ N]. destruct (snd e); [discriminate | reflexivity].
Qed.

Lemma sort_values_perm {K} (ascending : bool) (s : list (K * option Q)) :
  Permutation s (sort_values ascending s).
Proof.
  unfold sort_values. rewrite <- nargsort_perm. apply series_split.
Qed.

Lemma sort_values_ranked {K} (ascending : bool) (s : list (K * option Q)) :
  ranked ascending (sort_values ascending s).
Proof.
  unfold ranked, sort_values. apply StronglySorted_app.
  - apply StronglySorted_map.
    pose proof (nargsort_sorted (@by_value K) (@by_value_total K)
                  (@by_value_trans K) ascending (notna s)) as S.
    eapply StronglySorted_ind with (P := StronglySorted _); [constructor| |exact S].
    intros a l _ IH F. constructor; [exact IH|].
    rewrite Forall_forall in *. intros b Ib. specialize (F b Ib).
    simpl. unfold by_value in F. destruct ascending;
      now apply Qle_bool_iff in F.
  - generalize (isna_null s). generalize (isna s) as l.
    induction l as [|e l IH]; intros N; constructor.
    + apply IH. intros x Ix. apply N. now right.
    + rewrite Forall_forall. intros b Ib.
      rewrite (N b (or_intror Ib)). destruct (snd e); exact I.
  - intros a b _ Ib. rewrite (isna_null s b Ib). destruct (snd a); exact I.
Qed.

(** C9, as stated, fails: two products tie at 10.  Whichever of them the
    frame meets first, the grouping hands the same key-ordered series to
    the sort, so the ranking is the same for both frames and cannot follow
    the first appearance in each; with B met first it lists A first. *)
Lemma C9_ties_do_not_follow_first_appearance :
  let a := sample "2022" None None None None (Some "A"%string) (Some 10) None in
  let b := sample "2022" None None None None (Some "B"%string) (Some 10) None in
  first_appearance product_name [b; a] = ["B"; "A"]%string /\
  first_appearance product_name [a; b] = ["A"; "B"]%string /\
  groupby_sum product_name revenue_usd [b; a]
    = groupby_sum product_name revenue_usd [a; b] /\
  top [b; a] = top [a; b] /\
  top [b; a] = [("A", Some 10); ("B", Some 10)]%string /\
  map fst (top [b; a]) <> first_appearance product_name [b; a].
Proof.
  simpl. repeat split. discriminate.
Qed.

(** C9, amended. Rank extraction reorders the entries by aggregate value
    in the direction asked, entries without a value last, as a function of
    its input alone; the top N are the first N entries of that order, and
    all of them when there are no more than N groups.  How ties are ordered
    is not part of the statement. *)
Theorem C9_rank_extraction {K} (ascending : bool) (n : nat)
    (s : list (K * option Q)) :
  Permutation s (sort_values ascending s)
  /\ ranked ascending (sort_values ascending s)
  /\ (exists rest,
        sort_values ascending s = head n (sort_values ascending s) ++ rest)
  /\ length (head n (sort_values ascending s)) = Nat.min n (length s)
  /\ ((length s <= n)%nat ->
      head n (sort_values ascending s) = sort_values ascending s).
Proof.
  pose proof (Permutation_length (sort_values_perm ascending s)) as L.
  split; [|split; [|split; [|split]]].
  - apply sort_values_perm.
  - apply sort_values_ranked.
  - exists (skipn n (sort_values ascending s)). unfold head.
    symmetry. apply firstn_skipn.
  - unfold head. rewrite length_firstn. now rewrite <- L.
  - intros B. unfold head. apply firstn_all2. now rewrite <- L.
Qed.

Lemma C9_rank_extraction_witness :
  top scenario
  = sort_values false (to_series (groupby_sum product_name revenue_usd scenario)).
Proof.
  unfold top.
  apply (proj2 (proj2 (proj2 (proj2
    (C9_rank_extraction false 15
       (to_series (groupby_sum product_name revenue_usd scenario))))))).
  vm_compute. lia.
Defined.

(* ================================================================== *)
(** * Pivots *)

(** A pivot holds, at each row and column label, what the grouped frame
    holds for the pair, and a null when it holds nothing. *)
Lemma pivot_cells {R C} `{Ord R} `{Ord C} (g : list ((R * C) * Q)) :
  cells (pivot g) =
  map (fun r => map (fun c => lookup (r, c) g) (columns (pivot g)))
      (index (pivot g)).
Proof. reflexivity. Qed.

(** After [fillna] no cell is null, and the cells that had a value keep
    it. *)
Lemma fillna_cells {R C} (v : Q) (p : PivotMatrix R C) :
  cells (fillna v p) =
  map (map (fun c => Some (match c with Some q => q | None => v end))) (cells p)
  /\ Forall (Forall (fun c => c <> None)) (cells (fillna v p)).
Proof.
  split; [reflexivity|]. simpl.
  rewrite Forall_forall. intros line Il. apply in_map_iff in Il.
  destruct Il as (l & <- & _). rewrite Forall_forall. intros c Ic.
  apply in_map_iff in Ic. destruct Ic as (c' & <- & _). discriminate.
Qed.

(** C5, the code at the failing input. In the scenario no record is of
    2022 and Q2, and none is of region EU and category TV.  Both pivots are
    of revenue sums, yet the Year x Quarter pivot leaves its absent cell
    null while the Region x Category pivot fills its absent cell with 0. *)
Theorem C5_heat_pivot_leaves_absent_cell_null :
  lookup ("2022", "Q2")%string (heat scenario) = None /\
  cell_at (heat_pivot scenario) "2022"%string "Q2"%string = Some None /\
  lookup ("EU", "TV")%string (rc scenario) = None /\
  cell_at (rc_pivot scenario) "EU"%string "TV"%string = Some (Some 0).
Proof. repeat split. Qed.

(* ================================================================== *)
(** * More key orders *)

#[export] Instance OrdLaws_Z : OrdLaws Ord_Z.
Proof.
  split.
  - intros a b. apply Z.compare_eq_iff.
  - intros a b. apply Z.compare_antisym.
  - intros a b c. unfold cmp, Ord_Z. rewrite !Z.compare_lt_iff. apply Z.lt_trans.
Qed.

#[export] Instance OrdLaws_pair {A B} {OA : Ord A} {OB : Ord B}
    {LA : OrdLaws OA} {LB : OrdLaws OB} : OrdLaws (Ord_pair (A := A) (B := B)).
Proof.
  split.
  - intros [a1 b1] [a2 b2]. unfold cmp, Ord_pair. simpl. split.
    + destruct (cmp a1 a2) eqn:C; try discriminate.
      intros E. apply cmp_eq in C, E. now subst.
    + intros E. inversion E; subst.
      rewrite (proj2 (cmp_eq a2 a2) eq_refl). now apply cmp_eq.
  - intros [a1 b1] [a2 b2]. unfold cmp, Ord_pair. simpl.
    rewrite (cmp_antisym a1 a2).
    destruct (cmp a2 a1); simpl; try reflexivity. apply cmp_antisym.
  - intros [a1 b1] [a2 b2] [a3 b3]. unfold cmp, Ord_pair. simpl.
    destruct (cmp a1 a2) eqn:C12; try discriminate;
      destruct (cmp a2 a3) eqn:C23; try discriminate; intros H1 H2.
    + apply cmp_eq in C12, C23. subst.
      rewrite (proj2 (cmp_eq a3 a3) eq_refl). now apply cmp_trans with b2.
    + apply cmp_eq in C12. subst. now rewrite C23.
    + apply cmp_eq in C23. subst. now rewrite C12.
    + now rewrite (cmp_trans _ _ _ C12 C23).
Qed.

(* ================================================================== *)
(** * Sorted distinct values *)

Section SortedUnique.
Context {K : Type} {O : Ord K} {OL : OrdLaws O}.

Lemma upsert_keys_iff {A} (k : K) (fresh : A) (f : A -> A) (m : list (K * A)) :
  forall x, In x (map fst (upsert k fresh f m)) <-> x = k \/ In x (map fst m).
Proof.
  induction m as [|[k' a] m IH]; simpl; intros x.
  - intuition.
  - destruct (cmp k k') eqn:C; simpl.
    + apply cmp_eq in C. subst k'. intuition.
    + intuition.
    + rewrite IH. intuition.
Qed.

Lemma ascending_keys_NoDup {A} (m : list (K * A)) :
  ascending_keys m -> NoDup (map fst m).
Proof.
  unfold ascending_keys. intros S.
  induction S as [|e m S IH F]; simpl; constructor; [|assumption].
  intros I. apply in_map_iff in I. destruct I as (e' & E & I).
  rewrite Forall_forall in F. specialize (F e' I). rewrite E in F.
  rewrite (proj2 (cmp_eq (fst e) (fst e)) eq_refl) in F. discriminate.
Qed.

Lemma sorted_unique_slots (l : list K) :
  forall acc : list (K * unit),
    ascending_keys acc ->
    let out := fold_left (fun acc k => upsert k tt (fun u => u) acc) l acc in
    ascending_keys out /\
    forall x, In x (map fst out) <-> In x l \/ In x (map fst acc).
Proof.
  induction l as [|k l IH]; intros acc S; simpl.
  - split; [assumption | intuition].
  - destruct (IH (upsert k tt (fun u => u) acc)) as [S' M].
    + now apply upsert_ascending.
    + split; [exact S'|]. intros x. rewrite M, upsert_keys_iff.
      intuition.
Qed.

Lemma sorted_unique_In (l : list K) (x : K) :
  In x (sorted_unique l) <-> In x l.
Proof.
  unfold sorted_unique.
  destruct (sorted_unique_slots l (acc := [])) as [_ M]; [constructor|].
  rewrite M. simpl. intuition.
Qed.

Lemma sorted_unique_NoDup (l : list K) : NoDup (sorted_unique l).
Proof.
  unfold sorted_unique.
  destruct (sorted_unique_slots l (acc := [])) as [S _]; [constructor|].
  now apply ascending_keys_NoDup.
Qed.

Lemma sorted_unique_ascending (l : list K) :
  StronglySorted (fun a b => cmp a b = Lt) (sorted_unique l).
Proof.
  unfold sorted_unique.
  destruct (sorted_unique_slots l (acc := [])) as [S _]; [constructor|].
  now apply StronglySorted_map.
Qed.
End SortedUnique.

(* ================================================================== *)
(** * The sidebar *)

Lemma text_cells_In (cells : list (option string)) (s : string) :
  In s (text_cells cells) <-> In (Some s) cells.
Proof.
  unfold text_cells. rewrite in_flat_map. split.
  - intros ([t|] & I & E); simpl in E; [|contradiction].
    destruct E as [<-|[]]. exact I.
  - intros I. exists (Some s). split; [exact I | now left].
Qed.

Lemma has_null_In (cells : list (option string)) :
  existsb is_null cells = true <-> In None cells.
Proof.
  rewrite existsb_exists. split.
  - intros ([s|] & I & E); [discriminate | exact I].
  - intros I. exists None. split; [exact I | reflexivity].
Qed.

Lemma text_cells_NoDup_some (l : list string) :
  NoDup l -> NoDup (map Some l).
Proof.
  intros N. induction N as [|x l X N IH]; simpl; constructor; [|exact IH].
  intros I. apply in_map_iff in I. destruct I as (y & [= ->] & I). now apply X.
Qed.

(** The options of a text column: none when the column has a missing
    cell, else exactly the cells of the column, each once and in ascending
    order. *)
Lemma sorted_unique_cells_spec (cells : list (option string)) :
  (sorted_unique_cells cells = None <-> In None cells) /\
  forall opts, sorted_unique_cells cells = Some opts ->
    NoDup opts /\ (forall x, In x opts <-> In x cells) /\
    exists texts, opts = map Some texts /\
      StronglySorted (fun a b => String.compare a b = Lt) texts.
Proof.
  unfold sorted_unique_cells.
  destruct (existsb is_null cells) eqn:E.
  - apply has_null_In in E. split; [tauto | discriminate].
  - split.
    + split; [discriminate|]. intros I.
      apply has_null_In in I. congruence.
    + intros opts [= <-]. split; [|split].
      * apply text_cells_NoDup_some, sorted_unique_NoDup.
      * intros [s|].
        -- rewrite in_map_iff. split.
           ++ intros (t & [= ->] & I).
              now apply text_cells_In, sorted_unique_In.
           ++ intros I. exists s. split; [reflexivity|].
              now apply sorted_unique_In, text_cells_In.
        -- split.
           ++ intros I. apply in_map_iff in I. destruct I as (t & [=] & _).
           ++ intros I. apply has_null_In in I. congruence.
      * exists (sorted_unique (text_cells cells)). split; [reflexivity|].
        apply (sorted_unique_ascending (O := Ord_string)).
Qed.

Lemma default_selection_spec (df_raw : DataFrame) (f : FilterSpec) :
  default_selection df_raw = Some f ->
  (NoDup (years f) /\ forall y, In y (years f) <-> In y (map year df_raw)) /\
  (NoDup (regions f) /\ forall x, In x (regions f) <-> In x (map region df_raw)) /\
  (NoDup (categories f) /\
   forall x, In x (categories f) <-> In x (map category df_raw)).
Proof.
  unfold default_selection.
  destruct (sorted_unique_cells (map region df_raw)) as [rs|] eqn:R;
    [|discriminate].
  destruct (sorted_unique_cells (map category df_raw)) as [cs|] eqn:C;
    [|discriminate].
  intros [= <-]. simpl. split; [|split].
  - split; [apply sorted_unique_NoDup | intros y; apply sorted_unique_In].
  - destruct (proj2 (sorted_unique_cells_spec _) rs R) as (N & I & _).
    now split.
  - destruct (proj2 (sorted_unique_cells_spec _) cs C) as (N & I & _).
    now split.
Qed.

(** X1. A user who leaves the three multiselects at their defaults sees
    the whole upload: with every option selected the filtered frame is the
    loaded frame. *)
Theorem X1_default_selection_keeps_every_row (df_raw : DataFrame)
    (f : FilterSpec) :
  default_selection df_raw = Some f ->
  apply_filters df_raw f = df_raw.
Proof.
  intros D. destruct (default_selection_spec df_raw D) as ([_ Y] & [_ R] & [_ C]).
  unfold apply_filters. apply filter_all_true. intros r I.
  apply mask_spec. repeat split.
  - apply Y. now apply in_map.
  - apply R. now apply in_map.
  - apply C. now apply in_map.
Qed.

Lemma X1_default_selection_keeps_every_row_witness :
  apply_filters scenario
    {| years := ["2022"; "2023"]%string;
       regions := [Some "EU"; Some "US"]%string;
       categories := [Some "Phone"; Some "TV"]%string |} = scenario.
Proof.
  apply (X1_default_selection_keeps_every_row scenario). reflexivity.
Defined.

(** X2. The sidebar is built exactly when neither the region nor the
    category column has a missing cell (with one, [sorted] or
    [st.multiselect] raises); when it is built, each multiselect offers
    exactly the values of its column, each value once and in ascending text
    order. *)
Theorem X2_sidebar_options (df_raw : DataFrame) :
  (default_selection df_raw = None <->
   In None (map region df_raw) \/ In None (map category df_raw))
  /\ forall f, default_selection df_raw = Some f ->
       (NoDup (years f) /\ forall y, In y (years f) <-> In y (map year df_raw))
       /\ (NoDup (regions f) /\
           forall x, In x (regions f) <-> In x (map region df_raw))
       /\ (NoDup (categories f) /\
           forall x, In x (categories f) <-> In x (map category df_raw))
       /\ StronglySorted (fun a b => String.compare a b = Lt) (years f)
       /\ (exists texts, regions f = map Some texts /\
             StronglySorted (fun a b => String.compare a b = Lt) texts)
       /\ (exists texts, categories f = map Some texts /\
             StronglySorted (fun a b => String.compare a b = Lt) texts).
Proof.
  split.
  - unfold default_selection.
    pose proof (proj1 (sorted_unique_cells_spec (map region df_raw))) as R.
    pose proof (proj1 (sorted_unique_cells_spec (map category df_raw))) as C.
    destruct (sorted_unique_cells (map region df_raw)) as [rs|].
    + destruct (sorted_unique_cells (map category df_raw)) as [cs|].
      * split; [discriminate|]. intros [M|M].
        -- apply R in M. discriminate.
        -- apply C in M. discriminate.
      * split; [|reflexivity]. intros _. right. now apply C.
    + split; [|reflexivity]. intros _. left. now apply R.
  - intros f D. destruct (default_selection_spec df_raw D) as (Y & R & C).
    split; [exact Y|]. split; [exact R|]. split; [exact C|].
    unfold default_selection in D.
    destruct (sorted_unique_cells (map region df_raw)) as [rs|] eqn:Er;
      [|discriminate].
    destruct (sorted_unique_cells (map category df_raw)) as [cs|] eqn:Ec;
      [|discriminate].
    inversion D. simpl. split; [|split].
    + apply (sorted_unique_ascending (O := Ord_string)).
    + apply (proj2 (sorted_unique_cells_spec (map region df_raw)) rs Er).
    + apply (proj2 (sorted_unique_cells_spec (map category df_raw)) cs Ec).
Qed.

Lemma X2_sidebar_options_witness :
  default_selection
    [ sample "2022" None None None (Some "Phone") None None None;
      sample "2022" None (Some "US") None (Some "Phone") None None None ]%string
  = None.
Proof.
  apply (proj1 (X2_sidebar_options _)). left. left. reflexivity.
Defined.

(* ================================================================== *)
(** * Groups *)

Section GroupFacts.
Context {K : Type} {O : Ord K} {OL : OrdLaws O}.

Lemma group_rows_In (key : Row -> option K) (k : K) (df : DataFrame) (r : Row) :
  In r (group_rows key k df) <-> In r df /\ key r = Some k.
Proof.
  unfold group_rows. rewrite filter_In. split; intros [I E]; split; try exact I.
  - destruct (key r) as [k'|]; [|discriminate].
    apply key_eqb_eq in E. now subst.
  - rewrite E. apply key_eqb_refl.
Qed.

Lemma group_rows_nonempty (key : Row -> option K) (k : K) (df : DataFrame) :
  group_rows key k df <> [] <-> exists r, In r df /\ key r = Some k.
Proof.
  split.
  - intros N. destruct (group_rows key k df) as [|r rows] eqn:E; [congruence|].
    exists r. apply group_rows_In. rewrite E. now left.
  - intros (r & I) E. apply group_rows_In in I. rewrite E in I. contradiction.
Qed.

Lemma aggregate_keys {A} (key : Row -> option K) (empty : A)
    (step : Row -> A -> A) (df : DataFrame) (k : K) :
  In k (map fst (aggregate key empty step df)) <->
  exists r, In r df /\ key r = Some k.
Proof.
  rewrite <- group_rows_nonempty. split.
  - intros I. apply in_map_iff in I. destruct I as ([k' a] & E & I).
    simpl in E. subst k'. now apply aggregate_in in I.
  - intros N. destruct (aggregate_has_group key empty step k df N) as [a I].
    apply in_map_iff. now exists (k, a).
Qed.

Lemma lookup_some_in {A} (k : K) (a : A) (m : list (K * A)) :
  lookup k m = Some a -> In (k, a) m.
Proof.
  induction m as [|[k' a'] m IH]; simpl; [discriminate|].
  destruct (key_eqb k k') eqn:E.
  - apply key_eqb_eq in E. intros [= ->]. left. now subst.
  - intros L. right. now apply IH.
Qed.

Lemma lookup_none_keys {A} (k : K) (m : list (K * A)) :
  lookup k m = None <-> ~ In k (map fst m).
Proof.
  induction m as [|[k' a'] m IH]; simpl; [tauto|].
  destruct (key_eqb k k') eqn:E.
  - apply key_eqb_eq in E. subst. split; [discriminate | tauto].
  - rewrite IH. split; [|tauto]. intros N [E'|I]; [|tauto].
    subst. rewrite key_eqb_refl in E. discriminate.
Qed.
End GroupFacts.

(* ================================================================== *)
(** * The rows of the groups *)

Section Partition.
Context {K : Type} {O : Ord K} {OL : OrdLaws O}.
Variable key : Row -> option K.

Lemma groups_skip (r : Row) (df : DataFrame) (ks : list K) :
  (forall k, key r = Some k -> ~ In k ks) ->
  flat_map (fun k => group_rows key k (r :: df)) ks
  = flat_map (fun k => group_rows key k df) ks.
Proof.
  induction ks as [|k ks IH]; intros N; cbn [flat_map]; [reflexivity|].
  rewrite IH by (intros k' E I; apply (N k' E); now right).
  f_equal. unfold group_rows. cbn [filter].
  destruct (key r) as [k'|] eqn:E; [|reflexivity].
  destruct (key_eqb k' k) eqn:Q; [|reflexivity].
  apply key_eqb_eq in Q. subst k'. exfalso. apply (N k eq_refl). now left.
Qed.

Lemma groups_take (r : Row) (df : DataFrame) (k0 : K) (ks : list K) :
  key r = Some k0 -> NoDup ks -> In k0 ks ->
  Permutation (flat_map (fun k => group_rows key k (r :: df)) ks)
              (r :: flat_map (fun k => group_rows key k df) ks).
Proof.
  intros E. induction ks as [|k ks IH]; intros D I; [contradiction|].
  inversion D as [|? ? Nk Dk]; subst.
  cbn [flat_map]. destruct (key_eqb k0 k) eqn:Q.
  - apply key_eqb_eq in Q. subst k0.
    rewrite groups_skip by (intros k' E'; congruence).
    unfold group_rows at 1. cbn [filter]. rewrite E, key_eqb_refl. reflexivity.
  - destruct I as [->|I]; [rewrite key_eqb_refl in Q; discriminate|].
    unfold group_rows at 1. cbn [filter]. rewrite E, Q.
    fold (group_rows key k df).
    rewrite (IH Dk I). symmetry. apply Permutation_middle.
Qed.

(** The groups of a list of distinct keys that holds every key of the
    frame are the rows that have a key, each row in one group. *)
Lemma groups_partition (df : DataFrame) (ks : list K) :
  NoDup ks ->
  (forall r k, In r df -> key r = Some k -> In k ks) ->
  Permutation (flat_map (fun k => group_rows key k df) ks)
              (filter (has_key key) df).
Proof.
  intros D. induction df as [|r df IH]; intros C.
  - simpl. induction ks as [|k ks IHk]; [constructor|].
    inversion D; subst. simpl. now apply IHk.
  - assert (C' : forall r' k, In r' df -> key r' = Some k -> In k ks).
    { intros r' k I. apply C. now right. }
    cbn [filter]. unfold has_key at 1.
    destruct (key r) as [k0|] eqn:E; cbn [is_null negb].
    + rewrite (groups_take df E D (C r k0 (or_introl eq_refl) E)).
      constructor. now apply IH.
    + rewrite groups_skip by (intros k E'; congruence). now apply IH.
Qed.
End Partition.

(* ================================================================== *)
(** * Sums in the arithmetic of the column *)

Lemma filter_filter {A} (p q : A -> bool) (l : list A) :
  filter p (filter q l) = filter (fun x => q x && p x) l.
Proof.
  induction l as [|x l IH]; simpl; [reflexivity|].
  destruct (q x); simpl; [destruct (p x)|]; now rewrite IH.
Qed.

Section SumFacts.
Context {num : Type} {add : num -> num -> num} {zero : num}
        {SL : SumLaws add zero}.

Lemma sum_assoc (a b c : num) : add (add a b) c = add a (add b c).
Proof. apply add_assoc. Qed.

Lemma sum_comm (a b : num) : add a b = add b a.
Proof. apply add_comm. Qed.

Lemma fold_add_push (l : list num) (z v : num) :
  fold_left add l (add z v) = add (fold_left add l z) v.
Proof.
  revert z. induction l as [|x l IH]; intros z; simpl; [reflexivity|].
  rewrite <- IH. f_equal.
  rewrite !sum_assoc. f_equal. apply sum_comm.
Qed.

(** Adding [zero] changes nothing of a sum that started from [zero]. *)
Lemma add_settled (z v : num) : add z zero = z -> add (add z v) zero = add z v.
Proof.
  intros E. rewrite sum_assoc, (sum_comm v zero), <- sum_assoc. now rewrite E.
Qed.

Lemma add_settled_cell (z v : num) : add z zero = z -> add z (add zero v) = add z v.
Proof. intros E. rewrite <- sum_assoc. now rewrite E. Qed.

Section Parts.
Context {K : Type} {O : Ord K} {OL : OrdLaws O}.
Variable test : K -> bool.

Lemma upsert_part (k : K) (v : num) (m : list (K * num)) :
  forall z, add z zero = z ->
  sum_where add test z (upsert k (add zero v) (fun a => add a v) m)
  = if test k then add (sum_where add test z m) v else sum_where add test z m.
Proof.
  unfold sum_where. induction m as [|[k' a] m IH]; intros z Z; simpl.
  - destruct (test k); simpl; [now apply add_settled_cell | reflexivity].
  - destruct (cmp k k') eqn:C; simpl.
    + apply cmp_eq in C. subst k'. destruct (test k); simpl; [|reflexivity].
      rewrite <- fold_add_push. f_equal. symmetry. apply sum_assoc.
    + destruct (test k); simpl; [|reflexivity].
      rewrite (add_settled_cell _ Z). destruct (test k'); simpl.
      * rewrite <- fold_add_push. f_equal.
        rewrite !sum_assoc. f_equal. apply sum_comm.
      * now rewrite fold_add_push.
    + destruct (test k'); simpl.
      * apply IH. now apply add_settled.
      * now apply IH.
Qed.

Lemma upsert_part_null (k : K) (m : list (K * num)) :
  forall z, add z zero = z ->
  sum_where add test z (upsert k zero (fun a => a) m) = sum_where add test z m.
Proof.
  unfold sum_where. induction m as [|[k' a] m IH]; intros z Z; simpl.
  - destruct (test k); simpl; [exact Z | reflexivity].
  - destruct (cmp k k') eqn:C; simpl.
    + reflexivity.
    + destruct (test k); simpl; [now rewrite Z | reflexivity].
    + destruct (test k'); simpl.
      * apply IH. now apply add_settled.
      * now apply IH.
Qed.

Variables (read : Q -> num) (key : Row -> option K) (col : Row -> option Q).

Lemma pass_row (r : Row) (acc : list (K * num)) (z : num) :
  add z zero = z ->
  sum_where add test z (pass key zero (add_present add read col) acc r)
  = if keyed key test r
    then add_present add read col r (sum_where add test z acc)
    else sum_where add test z acc.
Proof.
  intros Z. unfold pass, keyed. destruct (key r) as [k|]; [|reflexivity].
  unfold add_present. destruct (col r) as [q|].
  - now apply upsert_part.
  - rewrite (upsert_part_null _ _ Z). now destruct (test k).
Qed.

Lemma pass_part (df : DataFrame) :
  forall acc z, add z zero = z ->
  sum_where add test z (fold_left (pass key zero (add_present add read col)) df acc)
  = fold_left (fun a r => add_present add read col r a)
      (filter (keyed key test) df) (sum_where add test z acc).
Proof.
  induction df as [|r df IH]; intros acc z Z; simpl; [reflexivity|].
  rewrite (IH _ _ Z), (pass_row _ _ Z).
  now destruct (keyed key test r).
Qed.

(** The slots of a grouped sum whose key passes [test] add up to the sum
    over the rows whose key passes it. *)
Lemma groupby_sum_in_part (df : DataFrame) :
  sum_in add zero
    (map snd (filter (fun e => test (fst e))
                (groupby_sum_in add zero read key col df)))
  = series_sum_in add zero read col (filter (keyed key test) df).
Proof.
  unfold sum_in, groupby_sum_in, aggregate, series_sum_in.
  apply (pass_part df [] add_zero).
Qed.
End Parts.
End SumFacts.

Lemma wrap64_plus (u c : Z) : wrap64 (wrap64 u + c) = wrap64 (u + c).
Proof.
  unfold wrap64. f_equal.
  replace ((u + 2 ^ 63) mod 2 ^ 64 - 2 ^ 63 + c + 2 ^ 63)%Z
    with ((u + 2 ^ 63) mod 2 ^ 64 + c)%Z by ring.
  rewrite Zplus_mod_idemp_l. f_equal. ring.
Qed.

(** The addition of [int64] is associative and commutative, the
    wrap-around included. *)
#[export] Instance SumLaws_int64 : SumLaws add64 0%Z.
Proof.
  split.
  - intros a b c. unfold add64. rewrite wrap64_plus.
    rewrite (Z.add_comm a (wrap64 (b + c))), wrap64_plus. f_equal. ring.
  - intros a b. unfold add64. f_equal. ring.
  - reflexivity.
Qed.

(** The exact sums of the charts are the sums of the column's arithmetic
    taken over the rationals. *)
Lemma upsert_same_slots {K} {O : Ord K} (k : K) (v v' : Q) (f f' : Q -> Q)
    (m m' : list (K * Q)) :
  v == v' -> (forall a a', a == a' -> f a == f' a') ->
  same_slots m m' -> same_slots (upsert k v f m) (upsert k v' f' m').
Proof.
  intros V F S. induction S as [|[k1 a] [k2 a'] m m' [E1 E2] S IH]; simpl.
  - constructor; [now split | constructor].
  - simpl in E1, E2. subst k2. destruct (cmp k k1).
    + constructor; [split; [reflexivity | now apply F] | exact S].
    + constructor; [now split|]. constructor; [now split | exact S].
    + constructor; [now split | exact IH].
Qed.

Lemma groupby_sum_over_rationals {K} {O : Ord K} (key : Row -> option K)
    (col : Row -> option Q) (df : DataFrame) :
  same_slots (groupby_sum key col df)
             (groupby_sum_in Qplus 0 (fun q => q) key col df).
Proof.
  unfold groupby_sum, groupby_sum_in, aggregate.
  assert (G : forall acc acc', same_slots acc acc' ->
    same_slots (fold_left (pass key 0 (add_cell col)) df acc)
               (fold_left (pass key 0 (add_present Qplus (fun q => q) col)) df acc')).
  { induction df as [|r df IH]; intros acc acc' S; simpl; [exact S|].
    apply IH. unfold pass. destruct (key r) as [k|]; [|exact S].
    unfold add_cell, add_present. destruct (col r) as [q|]; simpl.
    - apply upsert_same_slots; [reflexivity | | exact S].
      intros a a' E. now rewrite E.
    - apply upsert_same_slots; [reflexivity | | exact S].
      intros a a' E. rewrite E. ring. }
  apply G. constructor.
Qed.

(** X3. A grouped sum has one entry per value of the grouping column that
    occurs in the frame, the entries in strictly ascending key order; and
    where the addition of the column is associative and commutative, as
    that of an integer column is with its wrap-around, each entry is the
    sum of the cells of the rows of its group, a null cell adding
    nothing. *)
Theorem X3_groupby_sum_groups {num} (add : num -> num -> num) (zero : num)
    (read : Q -> num) {SL : SumLaws add zero}
    {K} {O : Ord K} {OL : OrdLaws O}
    (key : Row -> option K) (col : Row -> option Q) (df : DataFrame) :
  let groups := groupby_sum_in add zero read key col df in
  ascending_keys groups
  /\ NoDup (map fst groups)
  /\ (forall k, In k (map fst groups) <-> exists r, In r df /\ key r = Some k)
  /\ (forall k v, In (k, v) groups ->
        v = series_sum_in add zero read col (group_rows key k df)).
Proof.
  unfold groupby_sum_in. split; [|split; [|split]].
  - apply aggregate_ascending.
  - apply ascending_keys_NoDup, aggregate_ascending.
  - intros k. apply aggregate_keys.
  - intros k v I. apply aggregate_in in I. now destruct I as [_ ->].
Qed.

Lemma X3_groupby_sum_groups_witness :
  (-9223372036854775804)%Z
  = series_sum_in add64 0%Z int64_of revenue_usd
      (group_rows category "Phone"%string ledger).
Proof.
  apply (proj2 (proj2 (proj2
    (X3_groupby_sum_groups int64_of (SL := SumLaws_int64)
       (OL := OrdLaws_string) category revenue_usd ledger)))).
  vm_compute. left. reflexivity.
Defined.

(** C8, amended. For a grouping dimension in which no filtered record has a
    null value, the groups partition the filtered records, every record in
    exactly one group; and where the addition of the revenue column is
    associative and commutative, as that of an integer column is with its
    wrap-around, the per-group revenue sums add up to the total revenue of
    the filtered set.  (The addition of a [float64] column rounds and is
    not associative: there the two numbers are sums of the same cells in
    two orders, and nothing is stated of them.) *)
Theorem C8_partition_completeness {num} (add : num -> num -> num) (zero : num)
    (read : Q -> num) {SL : SumLaws add zero}
    {K} {O : Ord K} {OL : OrdLaws O}
    (key : Row -> option K) (df : DataFrame) :
  (forall r, In r df -> key r <> None) ->
  let groups := groupby_sum_in add zero read key revenue_usd df in
  Permutation (flat_map (fun k => group_rows key k df) (map fst groups)) df
  /\ sum_in add zero (map snd groups)
     = series_sum_in add zero read revenue_usd df.
Proof.
  intros N groups.
  assert (F : filter (has_key key) df = df).
  { apply filter_all_true. intros r I. unfold has_key. specialize (N r I).
    destruct (key r); [reflexivity | congruence]. }
  split.
  - apply Permutation_trans with (filter (has_key key) df);
      [|rewrite F; apply Permutation_refl].
    apply groups_partition.
    + apply ascending_keys_NoDup, aggregate_ascending.
    + intros r k I E. apply aggregate_keys. now exists r.
  - pose proof (groupby_sum_in_part (fun _ : K => true) read key revenue_usd df) as P.
    rewrite filter_all_true in P by reflexivity.
    fold groups in P. rewrite P. f_equal.
    transitivity (filter (has_key key) df); [|exact F].
    apply filter_ext. intros r. unfold keyed, has_key.
    now destruct (key r).
Qed.

Lemma C8_partition_completeness_witness :
  sum_in add64 0%Z
    (map snd (groupby_sum_in add64 0%Z int64_of category revenue_usd ledger))
  = series_sum_in add64 0%Z int64_of revenue_usd ledger.
Proof.
  apply (C8_partition_completeness int64_of (SL := SumLaws_int64)
           (OL := OrdLaws_string) category ledger).
  intros r I. simpl in I.
  repeat (destruct I as [<-|I]; [discriminate|]). contradiction.
Defined.

(** X20. Where the addition of the column is associative and commutative,
    as that of an integer column is with its wrap-around, the entries of a
    two-key grouped sum that share a first key add up to the sum of the
    column over the records of that first key that have a second key, and
    when every record of the first key has a second key, to the entry of
    the one-key grouped sum.  So the Year x Quarter revenues of a year add
    up to its bar in Revenue by Year, and the Region x Category revenues
    of a region to its bar in Revenue by Region. *)
Theorem X20_two_key_groups_refine_one_key {num} (add : num -> num -> num)
    (zero : num) (read : Q -> num) {SL : SumLaws add zero}
    {A B} {OA : Ord A} {OB : Ord B} {LA : OrdLaws OA} {LB : OrdLaws OB}
    (ka : Row -> option A) (kb : Row -> option B) (col : Row -> option Q)
    (df : DataFrame) (a : A) :
  let cells := groupby_sum_in add zero read (key2 ka kb) col df in
  marginal_in add zero a cells
  = series_sum_in add zero read col (filter (has_key kb) (group_rows ka a df))
  /\ ((forall r, In r df -> ka r = Some a -> kb r <> None) ->
      forall v, In (a, v) (groupby_sum_in add zero read ka col df) ->
        marginal_in add zero a cells = v).
Proof.
  intros cells.
  assert (E : marginal_in add zero a cells
              = series_sum_in add zero read col
                  (filter (has_key kb) (group_rows ka a df))).
  { unfold marginal_in, cells.
    rewrite (groupby_sum_in_part (OL := OrdLaws_pair)
               (fun p : A * B => key_eqb (fst p) a) read (key2 ka kb) col df).
    f_equal. unfold group_rows. rewrite filter_filter.
    apply filter_ext. intros r. unfold keyed, key2, has_key.
    destruct (ka r) as [a'|]; [|reflexivity].
    destruct (kb r); simpl; [now rewrite andb_true_r | now rewrite andb_false_r]. }
  split; [exact E|]. intros N v I. rewrite E.
  unfold groupby_sum_in in I. apply aggregate_in in I. destruct I as [_ ->].
  rewrite filter_all_true; [reflexivity|].
  intros r Ir. apply group_rows_In in Ir. destruct Ir as [Ir Er].
  unfold has_key. specialize (N r Ir Er). destruct (kb r); [reflexivity | congruence].
Qed.

Lemma X20_two_key_groups_refine_one_key_witness :
  marginal_in add64 0%Z "2022"%string
    (groupby_sum_in add64 0%Z int64_of (key2 year_key quarter) revenue_usd ledger)
  = (-9223372036854775808)%Z.
Proof.
  apply (proj2 (X20_two_key_groups_refine_one_key int64_of
                  (SL := SumLaws_int64)
                  (LA := OrdLaws_string) (LB := OrdLaws_string)
                  year_key quarter revenue_usd ledger "2022"%string)).
  - intros r I _. simpl in I.
    repeat (destruct I as [<-|I]; [discriminate|]). contradiction.
  - vm_compute. left. reflexivity.
Defined.

(* ================================================================== *)
(** * Pivot cells *)

Section PivotFacts.
Context {R C : Type} {OR : Ord R} {OC : Ord C}
        {LR : OrdLaws OR} {LC : OrdLaws OC}.

Lemma position_In {K} {OK : Ord K} {LK : OrdLaws OK} (k : K) (l : list K) :
  In k l -> exists i, position k l = Some i /\ nth_error l i = Some k.
Proof.
  induction l as [|k' l IH]; simpl; [contradiction|].
  intros I. destruct (key_eqb k k') eqn:E.
  - apply key_eqb_eq in E. subst. now exists O.
  - destruct I as [->|I]; [rewrite key_eqb_refl in E; discriminate|].
    destruct (IH I) as (i & P & N). exists (S i). rewrite P. now split.
Qed.

Lemma nth_map_at {A B} (f : A -> B) (l : list A) (i : nat) (a : A) (d : B) :
  nth_error l i = Some a -> nth i (map f l) d = f a.
Proof.
  revert i. induction l as [|x l IH]; intros [|i]; simpl; try discriminate.
  - now intros [= ->].
  - apply IH.
Qed.




Lemma pivot_cell_at (g : list ((R * C) * Q)) (r : R) (c : C) :
  In r (index (pivot g)) -> In c (columns (pivot g)) ->
  cell_at (pivot g) r c = Some (lookup (r, c) g).
Proof.
  intros Ir Ic. unfold cell_at.
  destruct (position_In r _ Ir) as (i & Pi & Ni).
  destruct (position_In c _ Ic) as (j & Pj & Nj).
  rewrite Pi, Pj. rewrite pivot_cells.
  rewrite (nth_map_at _ _ _ [] Ni).
  exact (map_nth_error (fun c' => lookup (r, c') g) j _ Nj).
Qed.

Lemma fillna_cell_at (v : Q) (p : PivotMatrix R C) (r : R) (c : C) :
  cell_at (fillna v p) r c =
  option_map (fun x => Some (match x with Some q => q | None => v end))
             (cell_at p r c).
Proof.
  unfold cell_at. simpl.
  destruct (position r (index p)) as [i|]; [|reflexivity].
  destruct (position c (columns p)) as [j|]; [|reflexivity].
  change (@nil (option Q)) with
    (map (fun x : option Q => Some (match x with Some q => q | None => v end)) [])
    at 1.
  rewrite map_nth. apply nth_error_map.
Qed.
End PivotFacts.




(** X5. The Region x Category heatmap, built like the other one and then
    passed through [fillna(0)], has no null cell: its cell for a region and
    a category is the grouped revenue of the pair, and 0 when no record has
    that region and category. *)
Theorem X5_rc_pivot_cells (df : DataFrame) (rg ctg : string) :
  In rg (index (rc_pivot df)) -> In ctg (columns (rc_pivot df)) ->
  cell_at (rc_pivot df) rg ctg =
    Some (Some (match lookup (rg, ctg) (rc df) with Some v => v | None => 0 end))
  /\ ((~ exists r, In r df /\ region r = Some rg /\ category r = Some ctg) ->
      cell_at (rc_pivot df) rg ctg = Some (Some 0)).
Proof.
  intros Ir Ic. unfold rc_pivot in *. rewrite fillna_cell_at.
  simpl in Ir, Ic. rewrite (pivot_cell_at (rc df) rg ctg Ir Ic). simpl.
  split; [reflexivity|]. intros N.
  replace (lookup (rg, ctg) (rc df)) with (@None Q); [reflexivity|].
  symmetry. apply lookup_none_keys. intros I. apply N.
  unfold rc, groupby_sum in I. apply aggregate_keys in I.
  destruct I as (r & I & E). exists r. split; [exact I|].
  unfold key2 in E. destruct (region r), (category r); try discriminate.
  now inversion E.
Qed.

Lemma X5_rc_pivot_cells_witness :
  cell_at (rc_pivot scenario) "EU"%string "TV"%string
  = Some (Some (match lookup ("EU", "TV")%string (rc scenario) with
                | Some v => v | None => 0 end)).
Proof.
  refine (proj1 (@X5_rc_pivot_cells scenario "EU"%string "TV"%string _ _)).
  - vm_compute. left. reflexivity.
  - vm_compute. right. left. reflexivity.
Defined.

(* ================================================================== *)
(** * Value counts *)

Section TallyFacts.
Context {K : Type} {OK : Ord K} {LK : OrdLaws OK}.

Lemma lookup_bump (k k' : K) (m : list (K * nat)) :
  lookup k (bump k' m) =
  if key_eqb k k' then Some (S (count_of k' m)) else lookup k m.
Proof.
  unfold count_of. induction m as [|[k2 n] m IH]; simpl.
  - destruct (key_eqb k k'); reflexivity.
  - destruct (key_eqb k' k2) eqn:E2; simpl.
    + apply key_eqb_eq in E2. subst k2.
      destruct (key_eqb k k'); reflexivity.
    + rewrite IH. destruct (key_eqb k k2) eqn:E; [|reflexivity].
      apply key_eqb_eq in E. subst k2.
      rewrite (key_eqb_sym k k'), E2. reflexivity.
Qed.

Lemma bump_keys (k : K) (m : list (K * nat)) :
  forall x, In x (map fst (bump k m)) <-> x = k \/ In x (map fst m).
Proof.
  induction m as [|[k2 n] m IH]; simpl; intros x; [intuition|].
  destruct (key_eqb k k2) eqn:E; simpl.
  - apply key_eqb_eq in E. subst. intuition.
  - rewrite IH. intuition.
Qed.

Lemma bump_NoDup (k : K) (m : list (K * nat)) :
  NoDup (map fst m) -> NoDup (map fst (bump k m)).
Proof.
  induction m as [|[k2 n] m IH]; simpl; intros N.
  - repeat constructor. intros [].
  - inversion N as [|x l X N']; subst.
    destruct (key_eqb k k2) eqn:E; simpl.
    + now constructor.
    + constructor; [|now apply IH].
      rewrite bump_keys. intros [->|I]; [|contradiction].
      rewrite key_eqb_refl in E. discriminate.
Qed.

Lemma bump_sum (k : K) (m : list (K * nat)) :
  list_sum (map snd (bump k m)) = S (list_sum (map snd m)).
Proof.
  induction m as [|[k2 n] m IH]; simpl; [reflexivity|].
  destruct (key_eqb k k2); simpl; [reflexivity | rewrite IH; lia].
Qed.

Lemma lookup_NoDup_in (k : K) (n : nat) (m : list (K * nat)) :
  NoDup (map fst m) -> In (k, n) m -> lookup k m = Some n.
Proof.
  induction m as [|[k2 n2] m IH]; simpl; intros N I; [contradiction|].
  inversion N as [|x l X N']; subst.
  destruct I as [[= -> ->]|I]; [now rewrite key_eqb_refl|].
  destruct (key_eqb k k2) eqn:E; [|now apply IH].
  apply key_eqb_eq in E. subst k2. exfalso. apply X.
  apply in_map_iff. now exists (k, n).
Qed.

Variable col : Row -> option K.

Lemma tally_from (df : DataFrame) :
  forall acc, NoDup (map fst acc) ->
    let out := fold_left (tally_step col) df acc in
    NoDup (map fst out)
    /\ (forall k, count_of k out =
                  (count_of k acc + length (group_rows col k df))%nat)
    /\ list_sum (map snd out) =
       (list_sum (map snd acc) + length (dropna_subset col df))%nat
    /\ (forall k, In k (map fst out) <->
                  In k (map fst acc) \/ exists r, In r df /\ col r = Some k).
Proof.
  induction df as [|r df IH]; intros acc N; simpl.
  - repeat split; try assumption; try lia.
    + intros I. now left.
    + intros [I|(r & [] & _)]. exact I.
  - assert (N' : NoDup (map fst (tally_step col acc r)))
      by (unfold tally_step; destruct (col r); [now apply bump_NoDup | exact N]).
    destruct (IH _ N') as (D & Cn & S & M).
    split; [exact D|]. split; [|split].
    + intros k. rewrite Cn. unfold tally_step, count_of.
      destruct (col r) as [k'|]; simpl; [|reflexivity].
      rewrite lookup_bump, (key_eqb_sym k k').
      destruct (key_eqb k' k) eqn:E; simpl; [|reflexivity].
      apply key_eqb_eq in E. subst k'. unfold count_of. lia.
    + rewrite S. unfold tally_step, dropna_subset.
      destruct (col r) as [k'|]; simpl; [rewrite bump_sum; lia | reflexivity].
    + intros k. rewrite M. unfold tally_step.
      destruct (col r) as [k'|] eqn:E.
      * rewrite bump_keys. split.
        -- intros [[->|I]|(x & I & Ex)].
           ++ right. exists r. split; [now left | exact E].
           ++ now left.
           ++ right. exists x. split; [now right | exact Ex].
        -- intros [I|(x & [<-|I] & Ex)].
           ++ left. now right.
           ++ left. left. congruence.
           ++ right. now exists x.
      * split.
        -- intros [I|(x & I & Ex)]; [now left|].
           right. exists x. split; [now right | exact Ex].
        -- intros [I|(x & [<-|I] & Ex)]; [now left | congruence|].
           right. now exists x.
Qed.

Lemma tally_spec (df : DataFrame) :
  NoDup (map fst (tally col df))
  /\ (forall k n, In (k, n) (tally col df) ->
        n = length (group_rows col k df))
  /\ list_sum (map snd (tally col df)) = length (dropna_subset col df)
  /\ (forall k, In k (map fst (tally col df)) <->
        exists r, In r df /\ col r = Some k).
Proof.
  pose proof (tally_from df) as T. specialize (T [] (NoDup_nil _)).
  destruct T as (D & Cn & S & M).
  change (fold_left (tally_step col) df []) with (tally col df) in *.
  split; [exact D|]. split; [|split].
  - intros k n I. specialize (Cn k). unfold count_of in Cn.
    rewrite (@lookup_NoDup_in k n _ D I) in Cn. exact Cn.
  - exact S.
  - intros k. rewrite M. simpl. intuition.
Qed.
End TallyFacts.

Lemma by_count_total {K} (x y : K * nat) :
  by_count x y = true \/ by_count y x = true.
Proof. unfold by_count. rewrite !Nat.leb_le. lia. Qed.

Lemma by_count_trans {K} (x y z : K * nat) :
  by_count x y = true -> by_count y z = true -> by_count x z = true.
Proof. unfold by_count. rewrite !Nat.leb_le. lia. Qed.

Lemma list_sum_perm (l l' : list nat) :
  Permutation l l' -> list_sum l = list_sum l'.
Proof.
  intros P. induction P; simpl; lia.
Qed.

Lemma value_counts_perm {K} {OK : Ord K} (col : Row -> option K)
    (df : DataFrame) :
  Permutation (tally col df) (value_counts col df).
Proof. apply nargsort_perm. Qed.

(** X6. The counts of a value-count view: one entry per value of the
    column that occurs in the frame, each entry counting the rows with that
    value (so at least one), the entries in descending order of count, and
    the counts adding up to the number of rows whose cell is not null. *)
Theorem X6_value_counts (col : Row -> option string) (df : DataFrame) :
  NoDup (map fst (value_counts col df))
  /\ (forall k, In k (map fst (value_counts col df)) <->
        exists r, In r df /\ col r = Some k)
  /\ (forall k n, In (k, n) (value_counts col df) ->
        n = length (group_rows col k df) /\ (1 <= n)%nat)
  /\ StronglySorted (fun a b => (snd b <= snd a)%nat) (value_counts col df)
  /\ list_sum (map snd (value_counts col df)) = length (dropna_subset col df).
Proof.
  pose proof (value_counts_perm col df) as P.
  destruct (tally_spec col df) as (D & Cn & S & M).
  split; [|split; [|split; [|split]]].
  - eapply Permutation_NoDup; [|exact D]. now apply Permutation_map.
  - intros k. rewrite <- M. split; apply Permutation_in.
    + apply Permutation_sym. now apply Permutation_map.
    + now apply Permutation_map.
  - intros k n I. apply (Permutation_in _ (Permutation_sym P)) in I.
    pose proof (Cn k n I) as E. split; [exact E|].
    assert (Ik : In k (map fst (tally col df)))
      by (apply in_map_iff; now exists (k, n)).
    apply M in Ik. destruct Ik as (r & Ir & Er).
    assert (G : In r (group_rows col k df)) by (now apply group_rows_In).
    rewrite E. destruct (group_rows col k df); [contradiction | simpl; lia].
  - pose proof (nargsort_sorted (@by_count string) (@by_count_total string)
                  (@by_count_trans string) false (tally col df)) as Sd.
    eapply StronglySorted_ind with (P := StronglySorted _); [constructor| |exact Sd].
    intros a l _ IH F. constructor; [exact IH|].
    rewrite Forall_forall in *. intros b Ib. specialize (F b Ib).
    unfold by_count in F. now apply Nat.leb_le in F.
  - rewrite <- S. symmetry. apply list_sum_perm. now apply Permutation_map.
Qed.

Lemma X6_value_counts_witness :
  3%nat = length (group_rows category "Phone"%string scenario) /\ (1 <= 3)%nat.
Proof.
  apply (proj1 (proj2 (proj2 (X6_value_counts category scenario)))).
  vm_compute. left. reflexivity.
Defined.

Lemma fold_left_filter {A B} (f : A -> B -> A) (p : B -> bool) (l : list B) :
  (forall a x, p x = false -> f a x = a) ->
  forall a, fold_left f (filter p l) a = fold_left f l a.
Proof.
  intros Hf. induction l as [|x l IH]; intros a; simpl; [reflexivity|].
  destruct (p x) eqn:E; simpl; [apply IH|].
  rewrite (Hf a x E). apply IH.
Qed.

(** X7. Dropping the rows without a previous device before counting the
    devices changes nothing: [value_counts] leaves null cells out by
    itself. *)
Theorem X7_os_df_dropna_is_redundant (df : DataFrame) :
  os_df df = value_counts previous_device_os df.
Proof.
  unfold os_df, value_counts, dropna_subset. f_equal.
  apply fold_left_filter. intros acc r E.
  destruct (previous_device_os r); [discriminate | reflexivity].
Qed.

(* ================================================================== *)
(** * Shares and percentages *)

Lemma of_nat_pos (n : nat) : (1 <= n)%nat -> 0 < of_nat n.
Proof.
  intros L. unfold of_nat. change 0 with (inject_Z 0).
  rewrite <- Zlt_Qlt. lia.
Qed.

Lemma of_nat_le (n m : nat) : (n <= m)%nat -> of_nat n <= of_nat m.
Proof. intros L. unfold of_nat. rewrite <- Zle_Qle. lia. Qed.

(** A part of a whole, as a share and in percent. *)
Lemma share_bounds (n len : nat) :
  (n <= len)%nat -> (1 <= len)%nat ->
  0 <= of_nat n / of_nat len /\ of_nat n / of_nat len <= 1 /\
  of_nat n / of_nat len * 100 <= 100 /\
  ((1 <= n)%nat -> 0 < of_nat n / of_nat len * 100).
Proof.
  intros L P. pose proof (of_nat_pos P) as Hl.
  assert (U : of_nat n / of_nat len <= 1).
  { apply Qle_shift_div_r; [exact Hl|]. rewrite Qmult_1_l. now apply of_nat_le. }
  assert (Z0 : 0 <= of_nat n / of_nat len).
  { apply Qle_shift_div_l; [exact Hl|]. rewrite Qmult_0_l.
    change 0 with (of_nat 0). apply of_nat_le. lia. }
  repeat split; try assumption.
  - change 100 with (1 * 100) at 2. apply Qmult_le_compat_r; [exact U | discriminate].
  - intros N. apply Qmult_lt_0_compat; [|reflexivity].
    apply Qlt_shift_div_l; [exact Hl|]. rewrite Qmult_0_l. now apply of_nat_pos.
Qed.

Lemma filter_length_le {A} (p : A -> bool) (l : list A) :
  (length (filter p l) <= length l)%nat.
Proof.
  induction l as [|x l IH]; simpl; [lia|]. destruct (p x); simpl; lia.
Qed.

(** X9. The Return Rate KPI of a non-empty frame is a percentage: the
    share of rows whose return status is "Returned", times 100, between 0
    and 100; rows without a status count as not returned. *)
Theorem X9_return_rate_is_a_percentage (as_float : bool) (df : DataFrame) :
  df <> [] ->
  exists rate,
    In (st_metric "↩️ Return Rate" (Some rate)) (overview as_float df)
    /\ rate == of_nat (length (filter
                 (fun r => option_eqb String.eqb (return_status r)
                             (Some "Returned"%string)) df))
               / of_nat (length df) * 100
    /\ 0 <= rate /\ rate <= 100.
Proof.
  intros N.
  set (n := length (filter (fun r => option_eqb String.eqb (return_status r)
                                       (Some "Returned"%string)) df)).
  exists (of_nat n / of_nat (length df) * 100).
  assert (P : (1 <= length df)%nat) by (destruct df; [congruence | simpl; lia]).
  destruct (@share_bounds n (length df)) as (Z0 & U & H & _);
    [apply filter_length_le | exact P|].
  split; [|split; [reflexivity|split; [|exact H]]].
  - unfold overview. do 5 right. left. f_equal.
    unfold share_equal. destruct df; [congruence | reflexivity].
  - apply Qmult_le_0_compat; [exact Z0 | discriminate].
Qed.

Lemma X9_return_rate_is_a_percentage_witness :
  exists rate,
    In (st_metric "↩️ Return Rate" (Some rate))
       (overview (float_months scenario) scenario)
    /\ rate == of_nat (length (filter
                 (fun r => option_eqb String.eqb (return_status r)
                             (Some "Returned"%string)) scenario))
               / of_nat (length scenario) * 100
    /\ 0 <= rate /\ rate <= 100.
Proof.
  apply (X9_return_rate_is_a_percentage (float_months scenario) (df := scenario)).
  discriminate.
Defined.

(* ================================================================== *)
(** * The missing-value report *)














(* ================================================================== *)
(** * What a run shows *)

Lemma missing_values_no_download (df : DataFrame) :
  existsb is_download (missing_values df) = false /\
  existsb is_warning (missing_values df) = false.
Proof. unfold missing_values. destruct (miss df); split; reflexivity. Qed.

Lemma render_download (page : Page) (as_float : bool) (df : DataFrame) :
  existsb is_download (render page as_float df) =
  match page with DataQuality => true | _ => false end.
Proof.
  destruct page; try reflexivity.
  unfold render, data_quality. rewrite !existsb_app.
  rewrite (proj1 (missing_values_no_download df)). reflexivity.
Qed.

Lemma render_warning (page : Page) (as_float : bool) (df : DataFrame) :
  existsb is_warning (render page as_float df) = false.
Proof.
  destruct page; try reflexivity.
  unfold render, data_quality. rewrite !existsb_app.
  rewrite (proj2 (missing_values_no_download df)). reflexivity.
Qed.

(** X12. The CSV download is offered on the Data Quality page only, and
    only when some record passes the filters; the "no data" warning is
    shown exactly when none does, whatever the page. *)
Theorem X12_download_and_warning (df_raw : DataFrame) (sel : FilterSpec)
    (page : Page) :
  (existsb is_download (main df_raw sel page) = true <->
   page = DataQuality /\ apply_filters df_raw sel <> [])
  /\ (existsb is_warning (main df_raw sel page) = true <->
      apply_filters df_raw sel = []).
Proof.
  unfold main. destruct (apply_filters df_raw sel) as [|r df] eqn:E.
  - simpl. split; split; try discriminate; try reflexivity.
    intros [_ N]. congruence.
  - rewrite render_download, render_warning. split; split; try discriminate.
    + destruct page; try discriminate. intros _. split; [reflexivity | discriminate].
    + intros [-> _]. reflexivity.
Qed.

(* ================================================================== *)
(** * Year texts *)

Lemma to_int_parses (n : Z) :
  NilZero.int_of_string (astype_str n) = Some (Z.to_int n).
Proof.
  unfold astype_str. apply NilZero.isi; destruct n; simpl; try discriminate.
  - intros [= E]. now apply (Unsigned.to_uint_nonnil p).
  - intros [= E]. now apply (Unsigned.to_uint_nonnil p).
Qed.

(** X13. The text of a year cell determines the number: [astype(str)]
    sends different integers to different texts, so two loaded records have
    the same year text exactly when their [year] cells hold the same
    number, and filtering or grouping by the text is filtering or grouping
    by the number. *)
Theorem X13_year_text_is_injective :
  (forall a b : Z, astype_str a = astype_str b -> a = b)
  /\ (forall r1 r2 : RawRow,
        year (derive r1) = year (derive r2) <-> raw_year r1 = raw_year r2).
Proof.
  assert (J : forall a b : Z, astype_str a = astype_str b -> a = b).
  { intros a b E. pose proof (to_int_parses a) as Pa.
    rewrite E, to_int_parses in Pa. inversion Pa as [T].
    rewrite <- (DecimalZ.of_to a), <- (DecimalZ.of_to b). now rewrite T. }
  split; [exact J|]. intros r1 r2. simpl. split; [apply J | now intros ->].
Qed.

Lemma X13_year_text_is_injective_witness :
  raw_year (raw_sample None 2022) = raw_year (raw_sample None 2022).
Proof.
  apply (proj2 X13_year_text_is_injective). reflexivity.
Defined.

(* ================================================================== *)
(** * Period labels *)

Lemma string_length_append (a b : string) :
  String.length (a ++ b) = (String.length a + String.length b)%nat.
Proof. induction a as [|c a IH]; simpl; [reflexivity | now rewrite IH]. Qed.

Lemma string_compare_prefix (p a b : string) :
  String.compare (p ++ a) (p ++ b) = String.compare a b.
Proof.
  induction p as [|c p IH]; simpl; [reflexivity|].
  now rewrite ascii_compare_refl.
Qed.

Lemma zeros_length (n : nat) :
  String.length (string_of_list_ascii (repeat "0"%char n)) = n.
Proof. induction n as [|n IH]; simpl; [reflexivity | now rewrite IH]. Qed.

(** [zfill] pads up to the width and never cuts. *)
Lemma zfill_length (width : nat) (s : string) :
  String.length (zfill width s) = Nat.max width (String.length s).
Proof.
  unfold zfill. destruct s as [|c rest].
  - rewrite zeros_length. simpl. lia.
  - destruct (Ascii.eqb c "+" || Ascii.eqb c "-")%bool; simpl;
      rewrite string_length_append, zeros_length; simpl; lia.
Qed.

Lemma zfill_wide (width : nat) (s : string) :
  (width <= String.length s)%nat -> zfill width s = s.
Proof.
  intros L. unfold zfill.
  replace (width - String.length s)%nat with O by lia. simpl.
  destruct s as [|c rest]; [reflexivity|].
  destruct (Ascii.eqb c "+" || Ascii.eqb c "-")%bool; reflexivity.
Qed.

Ltac month_cases m H :=
  let E := fresh "E" in
  assert (E : (m = 1 \/ m = 2 \/ m = 3 \/ m = 4 \/ m = 5 \/ m = 6 \/ m = 7 \/
               m = 8 \/ m = 9 \/ m = 10 \/ m = 11 \/ m = 12)%Z) by lia;
  clear H;
  destruct E as [E|[E|[E|[E|[E|[E|[E|[E|[E|[E|[E|E]]]]]]]]]]]; subst m.

(** The label of a calendar month in an integer column: the year text, a
    hyphen and two digits; in a [float64] column, the year text, a hyphen
    and the month with its [.0]. *)
Lemma period_shape (y : string) (m : Z) :
  (1 <= m <= 12)%Z ->
  (exists d1 d2, period false y m = (y ++ String "-" (String d1 (String d2 "")))%string
                 /\ is_digit d1 = true /\ is_digit d2 = true)
  /\ period true y m = (y ++ "-" ++ astype_str m ++ ".0")%string.
Proof.
  intros H. unfold period.
  month_cases m H; (split; [eexists; eexists; repeat split | reflexivity]).
Qed.

(** The labels of one year in an integer column are in ascending text
    order exactly as their months are. *)
Lemma period_order (y : string) (m1 m2 : Z) :
  (1 <= m1 <= 12)%Z -> (1 <= m2 <= 12)%Z ->
  (String.compare (period false y m1) (period false y m2) = Lt <-> (m1 < m2)%Z).
Proof.
  intros H1 H2. unfold period. rewrite string_compare_prefix.
  month_cases m1 H1; month_cases m2 H2;
    (split; [intros C; try reflexivity; try discriminate C
            | intros L; try reflexivity; try lia]).
Qed.

(** In a [float64] column they are not: October comes before
    September. *)
Lemma period_order_float :
  period true "2023" 10 = "2023-10.0"%string
  /\ period true "2023" 9 = "2023-9.0"%string
  /\ String.compare (period true "2023" 10) (period true "2023" 9) = Lt.
Proof. repeat split. Qed.

(** The points of the monthly trend: one per year and month of a dated
    record. *)
Lemma monthly_groups (df : DataFrame) (y : string) (m : Z) (x : Q) :
  In ((y, m), x) (groupby_sum (key2 year_key month_num) revenue_usd df) ->
  exists r, In r df /\ year r = y /\ month_num r = Some m.
Proof.
  intros I.
  assert (Ik : In (y, m) (map fst (groupby_sum (key2 year_key month_num) revenue_usd df))).
  { apply in_map_iff. now exists ((y, m), x). }
  unfold groupby_sum in Ik.
  apply (aggregate_keys (OL := OrdLaws_pair)) in Ik.
  destruct Ik as (r & Ir & Er). exists r. unfold key2, year_key in Er.
  destruct (month_num r) as [m'|]; [|discriminate].
  inversion Er; subst. repeat split; assumption.
Qed.

Lemma monthly_points (as_float : bool) (df : DataFrame) (y l : string)
    (v : option Q) :
  In ((y, l), v) (monthly as_float df) ->
  exists m r, l = period as_float y m /\ In r df /\ year r = y /\ month_num r = Some m.
Proof.
  unfold monthly. intros I. apply in_map_iff in I.
  destruct I as ([[y' m] x] & E & I). simpl in E. inversion E; subst. clear E.
  exists m. destruct (monthly_groups _ _ _ _ I) as (r & H). now exists r.
Qed.

Lemma StronglySorted_weaken {A} (R R' : A -> A -> Prop) (l : list A) :
  (forall a b, In a l -> In b l -> R a b -> R' a b) ->
  StronglySorted R l -> StronglySorted R' l.
Proof.
  intros W S. induction S as [|a l S IH F]; constructor.
  - apply IH. intros x y Ix Iy. apply W; now right.
  - rewrite Forall_forall in *. intros b Ib.
    apply W; [now left | now right | now apply F].
Qed.

Lemma float_months_spec (df_raw : DataFrame) :
  (float_months df_raw = false <-> forall r, In r df_raw -> month_num r <> None)
  /\ (float_months df_raw = true <-> exists r, In r df_raw /\ month_num r = None).
Proof.
  unfold float_months. split.
  - destruct (existsb _ df_raw) eqn:E.
    + split; [discriminate|]. intros N. apply existsb_exists in E.
      destruct E as (r & I & Z). specialize (N r I).
      destruct (month_num r); [discriminate | congruence].
    + split; [|reflexivity]. intros _ r I Z.
      assert (T : existsb (fun r => is_null (month_num r)) df_raw = true).
      { apply existsb_exists. exists r. split; [exact I | now rewrite Z]. }
      congruence.
  - rewrite existsb_exists. split.
    + intros (r & I & Z). exists r. split; [exact I|].
      destruct (month_num r); [discriminate | reflexivity].
    + intros (r & I & Z). exists r. split; [exact I | now rewrite Z].
Qed.

(** X14. The labels of the monthly trend.  When every record of the
    upload has a sale date, the month column is an integer column: the
    label of a point is its year text, a hyphen and two digits, and along
    the chart the labels of one year are in ascending text order, the zero
    padding keeping "2023-10" after "2023-09".  When a record of the
    upload lacks its date, the month column is a [float64] one and the
    label of a point is its year text, a hyphen and the month with its
    [.0], as in "2023-5.0", whatever the filters keep. *)
Theorem X14_period_labels (df_raw : DataFrame) (sel : FilterSpec) :
  let chart := monthly (float_months df_raw) (apply_filters df_raw sel) in
  (forall r m, In r df_raw -> month_num r = Some m -> (1 <= m <= 12)%Z) ->
  ((forall r, In r df_raw -> month_num r <> None) ->
     (forall y l v, In ((y, l), v) chart ->
        exists d1 d2, l = (y ++ String "-" (String d1 (String d2 "")))%string
                      /\ is_digit d1 = true /\ is_digit d2 = true)
     /\ StronglySorted
          (fun a b => fst (fst a) = fst (fst b) ->
                      String.compare (snd (fst a)) (snd (fst b)) = Lt) chart)
  /\ ((exists r, In r df_raw /\ month_num r = None) ->
      forall y l v, In ((y, l), v) chart ->
        exists m, (1 <= m <= 12)%Z /\ l = (y ++ "-" ++ astype_str m ++ ".0")%string).
Proof.
  intros chart M.
  assert (P : forall y l v, In ((y, l), v) chart ->
            exists m, (1 <= m <= 12)%Z /\ l = period (float_months df_raw) y m).
  { intros y l v I. apply monthly_points in I.
    destruct I as (m & r & -> & Ir & _ & Em). exists m. split; [|reflexivity].
    unfold apply_filters in Ir. apply filter_In in Ir.
    now apply (M r m (proj1 Ir)). }
  split.
  - intros D. apply (proj1 (float_months_spec df_raw)) in D.
    unfold chart in *. rewrite D in *. split.
    + intros y l v I. destruct (P y l v I) as (m & Hm & ->).
      exact (proj1 (period_shape y Hm)).
    + unfold monthly. apply StronglySorted_map.
      apply StronglySorted_weaken
        with (R := fun a b => cmp (fst a) (fst b) = Lt);
        [|apply (aggregate_ascending (OL := OrdLaws_pair))].
      intros [[y1 m1] x1] [[y2 m2] x2] I1 I2 C Y. simpl in *. subst y2.
      unfold cmp, Ord_pair in C. simpl in C.
      change (cmp y1 y1) with (String.compare y1 y1) in C.
      rewrite string_compare_refl in C.
      assert (H : forall m x,
                In ((y1, m), x)
                   (groupby_sum (key2 year_key month_num) revenue_usd
                      (apply_filters df_raw sel)) -> (1 <= m <= 12)%Z).
      { intros m x I. apply monthly_groups in I. destruct I as (r & Ir & _ & Em).
        unfold apply_filters in Ir. apply filter_In in Ir.
        now apply (M r m (proj1 Ir)). }
      apply period_order; [now apply (H m1 x1) | now apply (H m2 x2)|].
      now apply Z.compare_lt_iff.
  - intros D. apply (proj2 (float_months_spec df_raw)) in D.
    unfold chart in *. rewrite D in *.
    intros y l v I. destruct (P y l v I) as (m & Hm & ->).
    exists m. split; [exact Hm|]. exact (proj2 (period_shape y Hm)).
Qed.

Lemma X14_period_labels_witness :
  StronglySorted
    (fun a b => fst (fst a) = fst (fst b) ->
                String.compare (snd (fst a)) (snd (fst b)) = Lt)
    (monthly (float_months calendar) (apply_filters calendar all_of_scenario)).
Proof.
  refine (proj2 (proj1 (X14_period_labels calendar all_of_scenario _) _)).
  - intros r m I E. simpl in I.
    destruct I as [<-|[<-|[<-|[]]]]; inversion E; lia.
  - intros r I. simpl in I.
    destruct I as [<-|[<-|[<-|[]]]]; discriminate.
Defined.

(** The labels of the three dated records, and what they become when
    the upload holds one more record, without a date. *)
Lemma monthly_labels_of_the_samples :
  map (fun e => snd (fst e))
      (monthly (float_months calendar) (apply_filters calendar all_of_scenario))
  = ["2022-09"; "2022-10"; "2023-01"]%string
  /\ map (fun e => snd (fst e))
       (monthly (float_months (calendar ++ [phone_2022]))
          (apply_filters (calendar ++ [phone_2022]) all_of_scenario))
     = ["2022-9.0"; "2022-10.0"; "2023-1.0"]%string.
Proof. split; reflexivity. Qed.

(* ================================================================== *)
(** * The headline counts *)

Lemma nunique_keys {K} {OK : Ord K} {LK : OrdLaws OK} (key : Row -> option K)
    (df : DataFrame) :
  exists keys, nunique key df = length keys /\ NoDup keys /\
    forall k, In k keys <-> exists r, In r df /\ key r = Some k.
Proof.
  exists (map fst (aggregate key tt (fun _ u => u) df)). split; [|split].
  - unfold nunique. now rewrite length_map.
  - apply ascending_keys_NoDup, aggregate_ascending.
  - intros k. apply aggregate_keys.
Qed.

(** X17. The headline of the overview never counts more years, regions or
    categories than were selected in the sidebar, nor more than there are
    records; a non-empty result has at least one year. *)
Theorem X17_headline_counts (df_raw : DataFrame) (sel : FilterSpec) :
  let df := apply_filters df_raw sel in
  (nunique year_key df <= length (years sel))%nat
  /\ (nunique region df <= length (regions sel))%nat
  /\ (nunique category df <= length (categories sel))%nat
  /\ (nunique year_key df <= length df)%nat
  /\ (df <> [] -> (1 <= nunique year_key df)%nat).
Proof.
  intros df.
  assert (M : forall r, In r df ->
            In (year r) (years sel) /\ In (region r) (regions sel) /\
            In (category r) (categories sel)).
  { intros r I. unfold df, apply_filters in I. apply filter_In in I.
    now apply mask_spec. }
  destruct (nunique_keys year_key df) as (ys & -> & Ny & Iy).
  destruct (nunique_keys region df) as (rs & -> & Nr & Ir).
  destruct (nunique_keys category df) as (cs & -> & Nc & Ic).
  split; [|split; [|split; [|split]]].
  - apply NoDup_incl_length; [exact Ny|]. intros y I. apply Iy in I.
    destruct I as (r & I & [= <-]). now apply M.
  - rewrite <- (length_map (@Some string) rs).
    apply NoDup_incl_length; [now apply text_cells_NoDup_some|].
    intros x I. apply in_map_iff in I. destruct I as (k & <- & I).
    apply Ir in I. destruct I as (r & I & <-). now apply M.
  - rewrite <- (length_map (@Some string) cs).
    apply NoDup_incl_length; [now apply text_cells_NoDup_some|].
    intros x I. apply in_map_iff in I. destruct I as (k & <- & I).
    apply Ic in I. destruct I as (r & I & <-). now apply M.
  - rewrite <- (length_map year df).
    apply NoDup_incl_length; [exact Ny|]. intros y I. apply Iy in I.
    destruct I as (r & I & [= <-]). now apply in_map.
  - intros N. destruct df as [|r rest] eqn:E; [congruence|].
    assert (I : In (year r) ys) by (apply Iy; exists r; split; [now left | reflexivity]).
    destruct ys; [contradiction | simpl; lia].
Qed.

Lemma X17_headline_counts_witness :
  (1 <= nunique year_key (apply_filters scenario all_of_scenario))%nat.
Proof.
  apply (proj2 (proj2 (proj2 (proj2
    (X17_headline_counts scenario all_of_scenario))))).
  discriminate.
Defined.

(* ================================================================== *)
(** * Distinct period labels *)

Lemma string_append_split (a a' b b' : string) :
  (a ++ b)%string = (a' ++ b')%string ->
  (String.length a' <= String.length a)%nat ->
  exists t, a = (a' ++ t)%string /\ b' = (t ++ b)%string.
Proof.
  revert a. induction a' as [|c' a' IH]; intros a E L; simpl in *.
  - exists a. now split.
  - destruct a as [|c a]; simpl in *; [lia|].
    inversion E as [[Ec Et]]. destruct (IH a Et) as (t & -> & ->); [lia|].
    now exists t.
Qed.

Lemma string_append_nil (s : string) : (s ++ "")%string = s.
Proof. induction s as [|c s IH]; simpl; [reflexivity | now rewrite IH]. Qed.

Lemma period_suffix_length (as_float : bool) (m : Z) :
  (1 <= m <= 12)%Z ->
  String.length (period_suffix as_float m)
  = if as_float then (if (m <? 10)%Z then 4%nat else 5%nat) else 3%nat.
Proof.
  intros H. destruct as_float; month_cases m H; reflexivity.
Qed.

(** What follows the year text tells the month, and none of these texts
    is the end of another. *)
Lemma period_suffix_inj (as_float : bool) (m1 m2 : Z) (t : string) :
  (1 <= m1 <= 12)%Z -> (1 <= m2 <= 12)%Z ->
  period_suffix as_float m2 = (t ++ period_suffix as_float m1)%string ->
  t = ""%string /\ m1 = m2.
Proof.
  intros H1 H2 E.
  assert (L : (String.length t <= 1)%nat).
  { pose proof (f_equal String.length E) as EL.
    rewrite string_length_append, !period_suffix_length in EL by assumption.
    destruct as_float; [|lia].
    destruct (m1 <? 10)%Z, (m2 <? 10)%Z; lia. }
  destruct t as [|c [|c' t]]; [| |simpl in L; lia].
  - split; [reflexivity|]. simpl in E.
    destruct as_float; month_cases m1 H1; month_cases m2 H2;
      try reflexivity; discriminate E.
  - exfalso.
    destruct as_float; month_cases m1 H1; month_cases m2 H2;
      vm_compute in E; discriminate E.
Qed.

(** A label tells its year text and its month, in either dtype of the
    month column. *)
Lemma period_inj (as_float : bool) (y1 y2 : string) (m1 m2 : Z) :
  (1 <= m1 <= 12)%Z -> (1 <= m2 <= 12)%Z ->
  period as_float y1 m1 = period as_float y2 m2 -> y1 = y2 /\ m1 = m2.
Proof.
  intros H1 H2 E. unfold period in E.
  destruct (Nat.le_ge_cases (String.length y2) (String.length y1)) as [L|L].
  - destruct (string_append_split _ _ _ _ E L) as (t & -> & Et).
    destruct (period_suffix_inj _ H1 H2 Et) as [-> ->].
    now rewrite string_append_nil.
  - symmetry in E.
    destruct (string_append_split _ _ _ _ E L) as (t & -> & Et).
    destruct (period_suffix_inj _ H2 H1 Et) as [-> ->].
    now rewrite string_append_nil.
Qed.

Lemma NoDup_map_in {A B} (f : A -> B) (l : list A) :
  (forall x y, In x l -> In y l -> f x = f y -> x = y) ->
  NoDup l -> NoDup (map f l).
Proof.
  intros J D. induction D as [|a l N D IH]; simpl; constructor.
  - intros I. apply in_map_iff in I. destruct I as (x & E & Ix).
    apply N. rewrite <- (J x a); [exact Ix | now right | now left | exact E].
  - apply IH. intros x y Ix Iy. apply J; now right.
Qed.

(** X18. No two points of the monthly trend share a label: a label
    identifies the year text and the month of its point, whether the month
    column of the upload is an integer column or, a sale date missing, a
    [float64] one. *)
Theorem X18_period_labels_are_distinct (df_raw : DataFrame) (sel : FilterSpec) :
  let chart := monthly (float_months df_raw) (apply_filters df_raw sel) in
  (forall r m, In r df_raw -> month_num r = Some m -> (1 <= m <= 12)%Z) ->
  NoDup (map (fun e => snd (fst e)) chart)
  /\ forall y1 y2 l v1 v2,
       In ((y1, l), v1) chart -> In ((y2, l), v2) chart ->
       y1 = y2 /\ v1 = v2.
Proof.
  intros chart M.
  set (g := groupby_sum (key2 year_key month_num) revenue_usd
              (apply_filters df_raw sel)).
  assert (H : forall y m x, In ((y, m), x) g -> (1 <= m <= 12)%Z).
  { intros y m x I. apply monthly_groups in I. destruct I as (r & Ir & _ & Em).
    unfold apply_filters in Ir. apply filter_In in Ir.
    now apply (M r m (proj1 Ir)). }
  assert (D : NoDup (map fst g)).
  { apply ascending_keys_NoDup, (aggregate_ascending (OL := OrdLaws_pair)). }
  assert (J : forall e1 e2, In e1 g -> In e2 g ->
            period (float_months df_raw) (fst (fst e1)) (snd (fst e1))
            = period (float_months df_raw) (fst (fst e2)) (snd (fst e2)) ->
            e1 = e2).
  { intros [[y1 m1] x1] [[y2 m2] x2] I1 I2 E. simpl in E.
    apply period_inj in E; [|now apply (H y1 m1 x1) | now apply (H y2 m2 x2)].
    destruct E as [-> ->]. f_equal.
    apply (lookup_in (OL := OrdLaws_pair)) in I1, I2;
      try apply (aggregate_ascending (OL := OrdLaws_pair)).
    congruence. }
  split.
  - unfold chart, monthly. fold g. rewrite map_map. simpl.
    apply NoDup_map_in; [exact J|].
    apply NoDup_map_inv with (f := fst). exact D.
  - intros y1 y2 l v1 v2 I1 I2. unfold chart, monthly in I1, I2. fold g in I1, I2.
    apply in_map_iff in I1, I2.
    destruct I1 as (e1 & E1 & I1). destruct I2 as (e2 & E2 & I2).
    inversion E1; subst. inversion E2 as [[Ey El Ev]].
    rewrite (J e2 e1 I2 I1 El). now split.
Qed.

Lemma X18_period_labels_are_distinct_witness :
  NoDup (map (fun e => snd (fst e))
           (monthly (float_months (calendar ++ [phone_2022]))
              (apply_filters (calendar ++ [phone_2022]) all_of_scenario))).
Proof.
  refine (proj1 (X18_period_labels_are_distinct (calendar ++ [phone_2022])
                   all_of_scenario _)).
  intros r m I E. simpl in I.
  destruct I as [<-|[<-|[<-|[<-|[]]]]]; inversion E; lia.
Defined.

(* ================================================================== *)
(** * The top of a ranking *)

Lemma StronglySorted_app_inv {A} (R : A -> A -> Prop) (l1 l2 : list A) :
  StronglySorted R (l1 ++ l2) ->
  forall a b, In a l1 -> In b l2 -> R a b.
Proof.
  induction l1 as [|x l1 IH]; simpl; intros S a b Ia Ib; [contradiction|].
  inversion S as [|y l S' F]; subst. destruct Ia as [<-|Ia].
  - rewrite Forall_forall in F. apply F. apply in_or_app. now right.
  - now apply IH.
Qed.

(** X19. The products of the Top 15 (and the countries of the Top 20) are
    taken from the grouped revenues, as many as there are up to the limit,
    and none that is left out has more revenue than one that is shown. *)
Theorem X19_top_n_are_the_largest {K} `{Ord K} (key : Row -> option K)
    (n : nat) (df : DataFrame) :
  let groups := to_series (groupby_sum key revenue_usd df) in
  let shown := head n (sort_values false groups) in
  length shown = Nat.min n (length groups)
  /\ incl shown groups
  /\ forall k v k' v',
       In (k, Some v) shown -> In (k', Some v') groups ->
       ~ In (k', Some v') shown -> v' <= v.
Proof.
  intros groups shown.
  pose proof (sort_values_perm false groups) as P.
  pose proof (sort_values_ranked false groups) as S.
  assert (E : sort_values false groups
              = shown ++ skipn n (sort_values false groups))
    by (symmetry; apply firstn_skipn).
  split; [|split].
  - unfold shown, head. rewrite length_firstn, <- (Permutation_length P).
    reflexivity.
  - intros e I. apply (Permutation_in _ (Permutation_sym P)).
    rewrite E. apply in_or_app. now left.
  - intros k v k' v' Is Ig Ns.
    apply (Permutation_in _ P) in Ig. rewrite E in Ig.
    apply in_app_or in Ig. destruct Ig as [Ig|Ig]; [contradiction|].
    unfold ranked in S. rewrite E in S.
    exact (@StronglySorted_app_inv _ _ _ _ S _ _ Is Ig).
Qed.

Lemma X19_top_n_are_the_largest_witness :
  50 <= 100.
Proof.
  apply (proj2 (proj2 (X19_top_n_are_the_largest product_name 2 scenario))
           "S22"%string 100 "QLED"%string 50).
  - vm_compute. right. left. reflexivity.
  - vm_compute. left. reflexivity.
  - vm_compute. intros [E|[E|[]]]; discriminate E.
Defined.
